(** * insights_client/archive.py: the archive builder [InsightsArchive]

    A shallow embedding of the class [InsightsArchive] and of the parts of
    the Python standard library its methods call ([str.lstrip],
    [os.path.join], [os.path.isdir], [shutil.rmtree], ...), followed by the
    properties of the builder.

    Strings are [string], the file system and the dictionaries are stdpp
    [gmap]s, and the methods run in a small state-and-exception monad. *)

From Stdlib Require Import Ascii String ZArith.
From stdpp Require Import base option list strings gmap fin_maps.

Set Warnings "-register-all".

(** ** Strings and POSIX paths *)

Module Path.

(** [s.lstrip('/')] for the one-character strip set the source uses. *)
Fixpoint lstrip (c : ascii) (s : string) : string :=
  match s with
  | EmptyString => EmptyString
  | String a s' => if Ascii.eqb a c then lstrip c s' else s
  end.

Definition startswith_char (c : ascii) (s : string) : bool :=
  match s with
  | String a _ => Ascii.eqb a c
  | EmptyString => false
  end.

Fixpoint endswith_char (c : ascii) (s : string) : bool :=
  match s with
  | EmptyString => false
  | String a EmptyString => Ascii.eqb a c
  | String _ s' => endswith_char c s'
  end.

Definition is_empty (s : string) : bool :=
  match s with EmptyString => true | _ => false end.

(** [os.path.join(a, b)] of posixpath, two arguments. *)
Definition join (a b : string) : string :=
  if startswith_char "/" b then b
  else if is_empty a || endswith_char "/" a then a +:+ b
  else a +:+ "/" +:+ b.

(** [s.split(sep)] for a one-character separator. *)
Fixpoint split (sep : ascii) (s : string) : list string :=
  match s with
  | EmptyString => [EmptyString]
  | String a s' =>
      if Ascii.eqb a sep then EmptyString :: split sep s'
      else match split sep s' with
           | w :: ws => String a w :: ws
           | [] => [String a EmptyString]
           end
  end.

(** The loop of [os.path.normpath] over the components of a path; the
    stack of kept components is held last component first. *)
Definition norm_step (absolute : bool) (stack : list string) (comp : string)
  : list string :=
  if String.eqb comp "" || String.eqb comp "." then stack
  else if negb (String.eqb comp "..") then comp :: stack
  else match stack with
       | [] => if absolute then [] else [comp]
       | top :: rest => if String.eqb top ".." then comp :: stack else rest
       end.

Definition norm_comps (p : string) : list string :=
  rev (fold_left (norm_step (startswith_char "/" p)) (split "/" p) []).

(** The path [p] names a location inside the directory [d] (or [d]
    itself): same root, and the normalised components of [d] are an
    initial segment of those of [p]. Meant for an absolute [d], as the
    archive directory of every builder is. *)
Definition lies_under (d p : string) : Prop :=
  startswith_char "/" p = startswith_char "/" d ∧
  norm_comps d `prefix_of` norm_comps p.

Definition has_dotdot (p : string) : bool :=
  existsb (String.eqb "..") (split "/" p).

(** The components of [p] that name something: the empty ones and the
    [.] ones dropped. *)
Definition clean_comps (p : string) : list string :=
  List.filter (λ c, negb (String.eqb c "" || String.eqb c "."))
    (split "/" p).

(** Textual containment: [p] is [d] or starts with [d] followed by a
    separator. This is the test [shutil.rmtree(d)] amounts to on a file
    system keyed by path. *)
Definition within (d p : string) : bool :=
  String.eqb d p || String.prefix (d +:+ "/") p.

(** [n] separators in a row. *)
Fixpoint slashes (n : nat) : string :=
  match n with
  | 0 => EmptyString
  | S n' => String "/" (slashes n')
  end.

End Path.

(** ** Python values, exceptions and the world the builder acts on *)

Inductive exn : Type :=
  | TypeError
  | UnboundLocalError
  | OSError
  | IOError
  | ShutilError
  | OtherError (name : string).

Inductive outcome (A : Type) : Type :=
  | Return (a : A)
  | Raise (e : exn).
Arguments Return {A} a.
Arguments Raise {A} e.

(** What a mapper may hand back; only its truth value matters to the
    builder. *)
Inductive value : Type :=
  | VNone
  | VBool (b : bool)
  | VInt (n : Z)
  | VStr (s : string)
  | VList (items : list value)
  | VDict (items : list (string * value)).

Definition truthy (v : value) : bool :=
  match v with
  | VNone => false
  | VBool b => b
  | VInt n => negb (Z.eqb n 0)
  | VStr s => negb (Path.is_empty s)
  | VList items => match items with [] => false | _ => true end
  | VDict items => match items with [] => false | _ => true end
  end.

(** Truth value of an attribute that is [None] or a string. *)
Definition truthy_str (o : option string) : bool :=
  match o with
  | Some s => negb (Path.is_empty s)
  | None => false
  end.

(** An argument that the caller may pass as one string or as a list of
    strings; Python iterates over either. *)
Inductive pyseq : Type :=
  | PStr (s : string)
  | PList (l : list string).

Fixpoint chars (s : string) : list string :=
  match s with
  | EmptyString => []
  | String a s' => String a EmptyString :: chars s'
  end.

Definition iter (p : pyseq) : list string :=
  match p with
  | PStr s => chars s
  | PList l => l
  end.

(** The file system is keyed by path. An entry is a directory made
    explicitly or a regular file with its content; the directories a file
    path implies are not entries of their own. *)
Inductive node : Type :=
  | Dir
  | File (content : string).

(** [falafel.core.context.Context(content=..., path=...)] *)
Record Context : Type := mkContext {
  content : list string;
  path : string
}.

(** Objects are told apart by identity; mappers are the keys of
    [mapper_output]. *)
Definition mapper_id := nat.

(** Effects in the order they happen. *)
Inductive event : Type :=
  | EvMakedirs (p : string)
  | EvWrite (p data : string)
  | EvCopyfile (src dst : string)
  | EvCopytree (src dst : string)
  | EvRmtree (p : string)
  | EvSubprocess (argv : list string)
  | EvMapper (m : mapper_id) (ctx : Context).

(** The path an effect creates or overwrites, if it does. *)
Definition written (e : event) : option string :=
  match e with
  | EvMakedirs p => Some p
  | EvWrite p _ => Some p
  | EvCopyfile _ dst => Some dst
  | EvCopytree _ dst => Some dst
  | EvRmtree _ | EvSubprocess _ | EvMapper _ _ => None
  end.

Definition written_paths (tr : list event) : list string :=
  omap written tr.

(** The world a method runs in: the file system, the attribute
    [self.mapper_output] (the one attribute the methods mutate), and the
    effects so far. The file system is keyed by paths as they are spelled:
    two spellings of one location are two keys, so statements about
    distinct files are made for paths in one spelling. *)
Record State : Type := mkState {
  fs : gmap string node;
  mapper_output : gmap nat (list value);
  trace : list event
}.

Definition set_fs (f : gmap string node → gmap string node) (st : State)
  : State :=
  mkState (f (fs st)) (mapper_output st) (trace st).

Definition set_mapper_output
  (f : gmap nat (list value) → gmap nat (list value)) (st : State) : State :=
  mkState (fs st) (f (mapper_output st)) (trace st).

Definition log (e : event) (st : State) : State :=
  mkState (fs st) (mapper_output st) (trace st ++ [e]).

(** ** The monad of methods: state passing with exceptions *)

Definition M (A : Type) : Type := State → State * outcome A.

#[export] Instance M_ret : MRet M := λ A a st, (st, Return a).

#[export] Instance M_bind : MBind M := λ A B k m st,
  match m st with
  | (st', Return a) => k a st'
  | (st', Raise e) => (st', Raise e)
  end.

Definition raise {A : Type} (e : exn) : M A := λ st, (st, Raise e).

Definition get_state : M State := λ st, (st, Return st).

Definition modify (f : State → State) : M unit := λ st, (f st, Return tt).

(** [try: m except: ...] as a value: the outcome of [m], never raising. *)
Definition attempt {A : Type} (m : M A) : M (outcome A) := λ st,
  match m st with
  | (st', r) => (st', Return r)
  end.

(** [try: m except E: pass], for the exceptions [catches] accepts. *)
Definition try_except_pass (catches : exn → bool) (m : M unit) : M unit :=
  λ st,
  match m st with
  | (st', Raise e) => if catches e then (st', Return tt) else (st', Raise e)
  | r => r
  end.

Definition is_OSError (e : exn) : bool :=
  match e with OSError => true | _ => false end.

(** [for x in l: body] *)
Fixpoint for_each {A : Type} (l : list A) (body : A → M unit) : M unit :=
  match l with
  | [] => mret tt
  | x :: l' => body x ;; for_each l' body
  end.

(** Running [m] from [st] creates or overwrites paths inside the
    directory [d] only. *)
Definition writes_within {A : Type} (d : string) (m : M A) (st : State)
  : Prop :=
  ∃ new, trace (m st).1 = trace st ++ new
         ∧ Forall (Path.lies_under d) (written_paths new).

(** Running [m] never changes the accumulator. *)
Definition keeps_accumulator {A : Type} (m : M A) : Prop :=
  ∀ st, mapper_output (m st).1 = mapper_output st.

(** Running [m] never makes an existing path disappear. *)
Definition never_removes {A : Type} (m : M A) : Prop :=
  ∀ st q, is_Some (fs st !! q) → is_Some (fs (m st).1 !! q).

(** What the accumulator, a [defaultdict(list)], gives for a key. *)
Definition results_of (acc : gmap nat (list value)) (m : nat) : list value :=
  default [] (acc !! m).

(** Every list the accumulator stores is non-empty and holds truthy
    values only. *)
Definition accumulator_ok (acc : gmap nat (list value)) : Prop :=
  ∀ m l, acc !! m = Some l → l ≠ [] ∧ Forall (λ v, truthy v = true) l.

(** ** Standard-library calls on the file system *)

Module Os.

(** [os.path.isdir]; a list argument is rejected by [os.stat] with a
    [TypeError], which [isdir] does not catch. *)
Definition path_isdir (p : pyseq) : M bool := λ st,
  match p with
  | PList _ => (st, Raise TypeError)
  | PStr s => (st, Return (match fs st !! s with
                           | Some Dir => true
                           | _ => false
                           end))
  end.

Definition path_isfile (p : string) : M bool := λ st,
  (st, Return (match fs st !! p with
               | Some (File _) => true
               | _ => false
               end)).

(** [os.makedirs(p)]: the leaf must not exist. Only the leaf is entered,
    which is all that happens when its parent is there already; the
    directories above it that a path implies are not entries of their
    own. *)
Definition makedirs (p : string) : M unit := λ st,
  match fs st !! p with
  | Some _ => (st, Raise OSError)
  | None => (log (EvMakedirs p) (set_fs <[p := Dir]> st), Return tt)
  end.

(** [os.path.dirname] *)
Fixpoint dirname_aux (s : string) : option string :=
  match s with
  | EmptyString => None
  | String a s' =>
      match dirname_aux s' with
      | Some d => Some (String a d)
      | None => if Ascii.eqb a "/" then Some (String a EmptyString) else None
      end
  end.

Fixpoint rstrip_slash_rev (r : list ascii) : list ascii :=
  match r with
  | a :: r' => if Ascii.eqb a "/" then rstrip_slash_rev r' else r
  | [] => []
  end.

Definition path_dirname (p : string) : string :=
  match dirname_aux p with
  | None => EmptyString
  | Some head =>
      match rstrip_slash_rev (rev (list_ascii_of_string head)) with
      | [] => head
      | r => string_of_list_ascii (rev r)
      end
  end.

(** [os.mkdir(p)]: the leaf must not exist, and the directory it goes
    into must: the root and the current directory always do. *)
Definition mkdir (p : string) : M unit := λ st,
  match fs st !! p with
  | Some _ => (st, Raise OSError)
  | None =>
      let d := path_dirname p in
      if Path.is_empty (Path.lstrip "/" d)
         || match fs st !! d with Some Dir => true | _ => false end
      then (log (EvMakedirs p) (set_fs <[p := Dir]> st), Return tt)
      else (st, Raise OSError)
  end.

(** [os.path.getsize]: the file must exist. *)
Definition path_getsize (p : string) : M Z := λ st,
  match fs st !! p with
  | Some (File c) => (st, Return (Z.of_nat (String.length c)))
  | Some Dir => (st, Return 0%Z)
  | None => (st, Raise OSError)
  end.

End Os.

Module Shutil.

(** [shutil.rmtree(p, True)]: errors are ignored, so it always returns;
    whatever lies within [p] is gone afterwards. *)
Definition rmtree_ignore_errors (p : string) : M unit :=
  modify (λ st,
    log (EvRmtree p)
        (set_fs (filter (λ kv, Path.within p kv.1 = false)) st)).

(** Whether [open(dst, 'wb')] can succeed: [dst] is not a directory, and
    the directory it is to be in is on record as one (or is the root or
    the working directory). *)
Definition can_open_for_writing (f : gmap string node) (dst : string) : bool :=
  match f !! dst with
  | Some Dir => false
  | _ =>
      let d := Os.path_dirname dst in
      Path.is_empty (Path.lstrip "/" d)
      || match f !! d with Some Dir => true | _ => false end
  end.

(** [shutil.copyfile(src, dst)]: the same-file test comes first, then
    [src] is opened for reading, then [dst] for writing. *)
Definition copyfile (src dst : string) : M unit := λ st,
  if String.eqb src dst then (st, Raise ShutilError)
  else match fs st !! src with
       | Some (File c) =>
           if can_open_for_writing (fs st) dst
           then (log (EvCopyfile src dst) (set_fs <[dst := File c]> st),
                 Return tt)
           else (st, Raise IOError)
       | _ => (st, Raise IOError)
       end.

Definition drop_chars (n : nat) (s : string) : string :=
  String.substring n (String.length s - n) s.

(** [shutil.copytree(src, dst)]: [src] must be a directory and [dst] must
    not exist; every entry within [src] reappears within [dst]. *)
Definition copytree (src dst : string) : M unit := λ st,
  match fs st !! src with
  | Some Dir =>
      match fs st !! dst with
      | Some _ => (st, Raise OSError)
      | None =>
          let sub := filter (λ kv, Path.within src kv.1 = true) (fs st) in
          let moved : gmap string node :=
            kmap (λ p, dst +:+ drop_chars (String.length src) p) sub in
          (log (EvCopytree src dst) (set_fs (λ f, moved ∪ f) st), Return tt)
      end
  | _ => (st, Raise OSError)
  end.

End Shutil.

(** ** The class [InsightsArchive] *)

(** The two kinds of spec of [insights_spec], and anything else a caller
    may pass. *)
Inductive spec_class : Type :=
  | InsightsCommand (mangled_command : string)
  | InsightsFile (relative_path : string)
  | OtherSpec.

Record InsightsSpec : Type := mkSpec {
  archive_path : option string;
  spec_cls : spec_class;
  (** what [spec.get_output()] returns: text, or [None] *)
  get_output : option string
}.

(** A mapper is either a [ComputedMeta], called through [parse_context],
    or a plain callable. Either returns a value or raises; it is seen
    through that result alone, and what else it may do to the world is not
    part of the model. *)
Inductive Mapper : Type :=
  | ComputedMeta (parse_context : Context → outcome value)
  | Callable (call : Context → outcome value).

Definition behaviour (mp : Mapper) (ctx : Context) : outcome value :=
  match mp with
  | ComputedMeta parse_context => parse_context ctx
  | Callable call => call ctx
  end.

Record InsightsArchive : Type := mkArchive {
  tmp_dir : string;
  hostname : string;
  archive_name : string;
  archive_dir : string;
  cmd_dir : string;
  compressor : string
}.

(** ** A concrete world, for running the builder *)

Module Sample.

Definition raising : Mapper :=
  Callable (λ _, Raise (OtherError "ValueError")).

Definition line_count : Mapper :=
  ComputedMeta (λ ctx, Return (VInt (Z.of_nat (length (content ctx))))).

Definition silent : Mapper := Callable (λ _, Return VNone).

Definition mapper_at (m : mapper_id) : Mapper :=
  match m with
  | 0 => raising
  | 1 => line_count
  | _ => silent
  end.

Definition MAPPERS : gmap string (list mapper_id) :=
  {[ "uname" := [1; 0; 2; 1] ]}.

Definition serialize (d : gmap string (gmap nat (list value))) : string :=
  match map_to_list d with
  | [(host, acc)] =>
      "{" +:+ host +:+ ": {"
      +:+ (if decide (acc = ∅) then "" else "...") +:+ "}}"
  | _ => "{}"
  end.

Definition splitlines (s : string) : list string := Path.split "010" s.

(** On a command line without quotes or escapes [shlex.split] cuts at
    white space. *)
Definition shlex_split (s : string) : list string := String.words s.

(** A [tar] that writes its output file and succeeds, and a shell that
    knows no other command. *)
Definition run_command (argv : list string) (f : gmap string node)
  : gmap string node * outcome Z :=
  match argv with
  | "tar" :: _ :: out :: _ => (<[out := File "tarball"]> f, Return 0%Z)
  | _ => (f, Raise OSError)
  end.

Definition self : InsightsArchive :=
  mkArchive "/var/tmp/k3x9" "web1" "insights-web1-20160101120000"
    "/var/tmp/k3x9/insights-web1-20160101120000"
    "/var/tmp/k3x9/insights-web1-20160101120000/insights_commands"
    "gz".

Definition start : State :=
  mkState
    {[ "/var/tmp/k3x9" := Dir;
       "/var/tmp/k3x9/insights-web1-20160101120000" := Dir;
       "/var/tmp/k3x9/insights-web1-20160101120000/insights_commands" := Dir;
       "/etc" := Dir;
       "/etc/hosts" := File "127.0.0.1 localhost" ]}
    ∅ [].

Definition uname_spec : InsightsSpec :=
  mkSpec None (InsightsCommand "uname_-a") (Some "Linux web1").

Definition stray_spec : InsightsSpec :=
  mkSpec None OtherSpec (Some "data").

(** A glob that matches one directory, and nothing else matches. *)
Definition expand_paths (p : string) (f : gmap string node)
  : option (list string) :=
  if String.eqb p "/et*" then Some ["/etc"] else None.

End Sample.

Section Archive.

(** Collaborators that live outside the module. *)

(** [plugins.MAPPERS]: logical name to the mappers registered under it,
    and the object behind each identity. *)
Variable MAPPERS : gmap string (list mapper_id).
Variable mapper_at : mapper_id → Mapper.

(** [mapper.serialize], applied to [{hostname: mapper_output}]. *)
Variable serialize : gmap string (gmap nat (list value)) → string.

(** [str.splitlines] and [shlex.split]. *)
Variable splitlines : string → list string.
Variable shlex_split : string → list string.

(** What running a command does to the file system, and its exit status;
    [subprocess.call] raises [OSError] when the program cannot be run. *)
Variable run_command : list string → gmap string node
                       → gmap string node * outcome Z.

(** [utilities._expand_paths]: the matches of a glob, or nothing. *)
Variable _expand_paths : string → gmap string node → option (list string).

Definition subprocess_call (argv : list string) : M Z := λ st,
  let st1 := log (EvSubprocess argv) st in
  match run_command argv (fs st1) with
  | (fs', r) => (set_fs (λ _, fs') st1, r)
  end.

(** Modelled from the spec: [utilities.write_data_to_file] is imported
    from a module that is not part of the sources at hand; the spec says
    it writes the data verbatim to the destination, creating intermediate
    directories on demand. *)
Definition write_data_to_file (data filepath : string) : M unit :=
  modify (λ st,
    log (EvWrite filepath data) (set_fs <[filepath := File data]> st)).

(** [tempfile.mkdtemp(prefix=...)] with an absolute prefix: makes, with
    [os.mkdir], and returns a directory whose name is the prefix followed
    by a name of its choosing. *)
Definition mkdtemp (prefix name : string) : M string :=
  let dir := prefix +:+ name in
  Os.mkdir dir ;;
  mret dir.

(** [create_archive_dir], on the attributes set so far. *)
Definition create_archive_dir (tmp_dir archive_name : string) : M string :=
  let archive_dir := Path.join tmp_dir archive_name in
  Os.makedirs archive_dir ;;
  mret archive_dir.

Definition create_command_dir (archive_dir : string) : M string :=
  let cmd_dir := Path.join archive_dir "insights_commands" in
  Os.makedirs cmd_dir ;;
  mret cmd_dir.

(** [__init__]. [mkdtemp_name] is the fresh name [tempfile.mkdtemp] picks
    after its prefix, [host] what [determine_hostname] returns and [now]
    what [time.strftime] returns. The accumulator starts empty. *)
Definition __init__ (compressor : string) (mkdtemp_name host now : string)
  : M InsightsArchive :=
  tmp_dir ← mkdtemp "/var/tmp/" mkdtemp_name;
  let archive_name := "insights-" +:+ host +:+ "-" +:+ now in
  archive_dir ← create_archive_dir tmp_dir archive_name;
  cmd_dir ← create_command_dir archive_dir;
  modify (set_mapper_output (λ _, ∅)) ;;
  mret (mkArchive tmp_dir host archive_name archive_dir cmd_dir compressor).

Definition get_full_archive_path (self : InsightsArchive) (path : string)
  : string :=
  Path.join (archive_dir self) (Path.lstrip "/" path).

Definition _copy_file (self : InsightsArchive) (path : string) : M string :=
  let full_path := get_full_archive_path self path in
  try_except_pass is_OSError (Os.makedirs (Os.path_dirname full_path)) ;;
  Shutil.copyfile path full_path ;;
  mret path.

Fixpoint contains_char (c : ascii) (s : string) : bool :=
  match s with
  | EmptyString => false
  | String a s' => Ascii.eqb a c || contains_char c s'
  end.

(** What [copy_file] returns: a path, [False], or nothing. *)
Inductive copy_result : Type :=
  | Copied (path : string)
  | NotCopied
  | NoValue.

Definition copy_file (self : InsightsArchive) (path : string)
  : M copy_result :=
  if contains_char "*" path then
    st ← get_state;
    match _expand_paths path (fs st) with
    | Some (p :: ps) =>
        for_each (p :: ps) (λ path, _copy_file self path ;; mret tt) ;;
        mret NoValue
    | _ => mret NoValue
    end
  else
    isfile ← Os.path_isfile path;
    if isfile : bool then
      r ← _copy_file self path; mret (Copied r)
    else mret NotCopied.

Definition copy_dir (self : InsightsArchive) (path : pyseq) : M pyseq :=
  for_each (iter path) (λ directory,
    isdir ← Os.path_isdir path;
    if isdir : bool then
      let full_path :=
        Path.join (archive_dir self) (Path.lstrip "/" directory) in
      Shutil.copytree directory full_path
    else mret tt) ;;
  mret path.

Definition get_compression_flag (compressor : string) : string :=
  default "z"
    (({[ "gz" := "z"; "xz" := "J"; "bz2" := "j"; "none" := "" ]}
       : gmap string string) !! compressor).

Definition write_mapper_output (self : InsightsArchive) : M unit :=
  let archive_path := Path.join (archive_dir self) "output.json" in
  st ← get_state;
  let serialized_data :=
    serialize {[ hostname self := mapper_output st ]} in
  write_data_to_file serialized_data archive_path.

Definition delete_tmp_dir (self : InsightsArchive) : M unit :=
  Shutil.rmtree_ignore_errors (tmp_dir self).

Definition delete_archive_dir (self : InsightsArchive) : M unit :=
  Shutil.rmtree_ignore_errors (archive_dir self).

(** The locals [tar_file_name] and the command line of
    [create_tar_file]. *)
Definition tar_file_name (self : InsightsArchive) : string :=
  let tar_file_name := Path.join (tmp_dir self) (archive_name self) in
  let ext := if String.eqb (compressor self) "none" then ""
             else "." +:+ compressor self in
  tar_file_name +:+ ".tar" +:+ ext.

Definition tar_command (self : InsightsArchive) (full_archive : bool)
  : string :=
  "tar c" +:+ get_compression_flag (compressor self) +:+ "fS "
  +:+ tar_file_name self +:+ " -C "
  +:+ (if negb full_archive then tmp_dir self else archive_dir self)
  +:+ " .".

Definition create_tar_file (self : InsightsArchive) (full_archive : bool)
  : M string :=
  write_mapper_output self ;;
  let tar_file_name := tar_file_name self in
  subprocess_call (shlex_split (tar_command self full_archive)) ;;
  delete_archive_dir self ;;
  Os.path_getsize tar_file_name ;;
  mret tar_file_name.

(** One call of a mapper on a context. *)
Definition invoke (m : mapper_id) (ctx : Context) : M value := λ st,
  (log (EvMapper m ctx) st, behaviour (mapper_at m) ctx).

(** [self.mapper_output[m].append(o)] on a [defaultdict(list)]. *)
Definition append_output (m : mapper_id) (o : value) : M unit :=
  modify (set_mapper_output
            (λ acc, <[m := default [] (acc !! m) ++ [o]]> acc)).

Definition execute_mappers (self : InsightsArchive)
    (name output path : string) : M unit :=
  match MAPPERS !! name with
  | Some ms =>
      for_each ms (λ m,
        let ctx := mkContext (splitlines output) path in
        r ← attempt (invoke m ctx);
        match r with
        | Raise _ => mret tt
        | Return o => if truthy o then append_output m o else mret tt
        end)
  | None => mret tt
  end.

(** The local variable [archive_path] of [add_to_archive] once the
    branches have run; [None] when no branch assigned it. *)
Definition add_to_archive_path (self : InsightsArchive) (spec : InsightsSpec)
  : option string :=
  if truthy_str (archive_path spec) then
    Some (get_full_archive_path self
            (Path.lstrip "/" (default "" (archive_path spec))))
  else
    let after_command :=
      match spec_cls spec with
      | InsightsCommand mangled_command =>
          Some (Path.join (cmd_dir self) (Path.lstrip "/" mangled_command))
      | _ => None
      end in
    match spec_cls spec with
    | InsightsFile relative_path =>
        Some (get_full_archive_path self (Path.lstrip "/" relative_path))
    | _ => after_command
    end.

(** Reading a local variable. *)
Definition read_local (v : option string) : M string :=
  match v with
  | Some x => mret x
  | None => raise UnboundLocalError
  end.

Definition add_to_archive (self : InsightsArchive) (spec : InsightsSpec)
    (name : option string) : M unit :=
  let archive_path := add_to_archive_path self spec in
  let output := get_output spec in
  if truthy_str output then
    archive_path ← read_local archive_path;
    write_data_to_file (default "" output) archive_path ;;
    if truthy_str name then
      execute_mappers self (default "" name) (default "" output) archive_path
    else mret tt
  else mret tt.

Definition add_metadata_to_archive (self : InsightsArchive)
    (metadata meta_path : string) : M unit :=
  let archive_path :=
    get_full_archive_path self (Path.lstrip "/" meta_path) in
  write_data_to_file metadata archive_path.

(** The command line that tars the content of directory [d] into the tar
    file of [self], and the fact that a trace has a run of it. *)
Definition tar_over (self : InsightsArchive) (d : string) : string :=
  "tar c" +:+ get_compression_flag (compressor self) +:+ "fS "
  +:+ tar_file_name self +:+ " -C " +:+ d +:+ " .".

Definition runs_tar_over (self : InsightsArchive) (d : string)
    (tr : list event) : Prop :=
  EvSubprocess (shlex_split (tar_over self d)) ∈ tr.

Definition is_subprocess (e : event) : bool :=
  match e with EvSubprocess _ => true | _ => false end.

(** What one pass of the loop body of [execute_mappers] leaves in the
    accumulator, as a function. *)
Definition collect (ctx : Context) (acc : gmap nat (list value))
    (m : mapper_id) : gmap nat (list value) :=
  match behaviour (mapper_at m) ctx with
  | Return o =>
      if truthy o then <[m := default [] (acc !! m) ++ [o]]> acc
      else acc
  | Raise _ => acc
  end.

(** A name of one component: not empty, no separator in it, and neither
    [.] nor [..]. *)
Definition plain_name (s : string) : bool :=
  negb (contains_char "/" s) && negb (String.eqb s "")
  && negb (String.eqb s ".") && negb (String.eqb s "..").

(** The attributes as [__init__] relates them. *)
Definition well_formed (self : InsightsArchive) : Prop :=
  (∃ name, tmp_dir self = "/var/tmp/" +:+ name) ∧
  (∃ now, archive_name self = "insights-" +:+ hostname self +:+ "-" +:+ now) ∧
  archive_dir self = Path.join (tmp_dir self) (archive_name self) ∧
  cmd_dir self = Path.join (archive_dir self) "insights_commands".

(** The archive-relative paths a spec can contribute as destination. *)
Definition spec_paths (spec : InsightsSpec) : list string :=
  match archive_path spec with Some p => [p] | None => [] end ++
  match spec_cls spec with
  | InsightsCommand mangled_command => [mangled_command]
  | InsightsFile relative_path => [relative_path]
  | OtherSpec => []
  end.

(** ** Facts about strings and paths *)

Import Path.
#[local] Arguments join : simpl never.

Lemma lstrip_cons_same c s : lstrip c (String c s) = lstrip c s.
Proof. simpl. by rewrite Ascii.eqb_refl. Qed.

Lemma lstrip_not_startswith c s : startswith_char c (lstrip c s) = false.
Proof.
  induction s as [|a s IH]; [done|].
  simpl. destruct (Ascii.eqb a c) eqn:E; [done|]. simpl. by rewrite E.
Qed.

Lemma append_cons x (a b : string) : String x a +:+ b = String x (a +:+ b).
Proof. reflexivity. Qed.

Lemma append_nil_l (b : string) : "" +:+ b = b.
Proof. reflexivity. Qed.

Lemma append_assoc (a b c : string) : (a +:+ b) +:+ c = a +:+ b +:+ c.
Proof.
  induction a as [|x a IH]; [done|]. by rewrite !append_cons, IH.
Qed.

Lemma append_nil_r (a : string) : a +:+ "" = a.
Proof. induction a as [|x a IH]; [done|]. by rewrite append_cons, IH. Qed.

Lemma split_nonempty sep s : split sep s ≠ [].
Proof.
  destruct s as [|a s]; simpl; [done|].
  destruct (Ascii.eqb a sep); [done|]. by destruct (split sep s).
Qed.

Lemma split_app sep a b :
  split sep (a +:+ String sep b) = split sep a ++ split sep b.
Proof.
  induction a as [|x a IH].
  - rewrite append_nil_l. simpl. by rewrite Ascii.eqb_refl.
  - rewrite append_cons. simpl.
    destruct (Ascii.eqb x sep); rewrite IH; [done|].
    pose proof (split_nonempty sep a) as Hne.
    by destruct (split sep a).
Qed.

Lemma endswith_char_inv c a :
  endswith_char c a = true → ∃ a0, a = a0 +:+ String c "".
Proof.
  induction a as [|x a IH]; [done|].
  destruct a as [|y a'].
  - simpl. intros ->%Ascii.eqb_eq. by exists "".
  - intros H. destruct (IH H) as [a0 Ha0]. exists (String x a0).
    by rewrite append_cons, <- Ha0.
Qed.

Lemma split_lstrip s :
  ∃ k, split "/" s = replicate k "" ++ split "/" (lstrip "/" s).
Proof.
  induction s as [|a s [k IH]].
  - by exists 0.
  - simpl. destruct (Ascii.eqb a "/") eqn:E.
    + exists (S k). simpl. by rewrite IH.
    + exists 0. simpl. by rewrite E.
Qed.

Lemma has_dotdot_lstrip s :
  has_dotdot s = false → has_dotdot (lstrip "/" s) = false.
Proof.
  unfold has_dotdot. destruct (split_lstrip s) as [k ->].
  rewrite existsb_app. by intros [_ ?]%orb_false_iff.
Qed.

Lemma startswith_app_cons c a x b1 b2 :
  startswith_char c (a +:+ String x b1) = startswith_char c (a +:+ String x b2).
Proof. by destruct a. Qed.

Lemma startswith_app c a b :
  is_empty a = false → startswith_char c (a +:+ b) = startswith_char c a.
Proof. by destruct a. Qed.

Lemma prefix_app (a b : string) : String.prefix a (a +:+ b) = true.
Proof.
  induction a as [|x a IH]; [by destruct b|].
  rewrite append_cons. simpl. by destruct (ascii_dec x x).
Qed.

Lemma prefix_app_cancel (a b c : string) :
  String.prefix (a +:+ b) (a +:+ c) = String.prefix b c.
Proof.
  induction a as [|x a IH]; [done|].
  rewrite !append_cons. simpl. by destruct (ascii_dec x x).
Qed.

Lemma norm_step_no_dotdot absolute stack comp :
  String.eqb ".." comp = false →
  norm_step absolute stack comp = stack
  ∨ norm_step absolute stack comp = comp :: stack.
Proof.
  intros H. unfold norm_step.
  destruct (String.eqb comp "" || String.eqb comp "."); [by left|].
  rewrite String.eqb_sym, H. by right.
Qed.

Lemma fold_norm_grows absolute comps stack :
  existsb (String.eqb "..") comps = false →
  ∃ extra,
    fold_left (norm_step absolute) comps stack = extra ++ stack.
Proof.
  revert stack. induction comps as [|y ys IH]; intros stack H.
  - by exists [].
  - simpl in H. apply orb_false_iff in H as [Hy Hys]. simpl.
    destruct (norm_step_no_dotdot absolute stack y Hy) as [-> | ->].
    + by apply IH.
    + destruct (IH (y :: stack) Hys) as [extra ->].
      exists (extra ++ [y]). by rewrite <- app_assoc.
Qed.

Lemma lies_under_refl d : lies_under d d.
Proof. by split. Qed.

Lemma lies_under_trans d1 d2 d3 :
  lies_under d1 d2 → lies_under d2 d3 → lies_under d1 d3.
Proof.
  intros [H1 P1] [H2 P2]. split; [congruence | by etrans].
Qed.

(** Joining a relative path with no [..] component onto a directory
    stays inside the directory. *)
Lemma lies_under_join a b :
  startswith_char "/" b = false → has_dotdot b = false →
  lies_under a (join a b).
Proof.
  intros Hrel Hdd. unfold join. rewrite Hrel.
  destruct (is_empty a) eqn:Hemp; simpl.
  { destruct a; [|done]. rewrite append_nil_l. split; [done|].
    apply prefix_nil. }
  assert (∀ a1,
    startswith_char "/" (a1 +:+ String "/" b) = startswith_char "/" a →
    fold_left (norm_step (startswith_char "/" a)) (split "/" a) []
      = fold_left (norm_step (startswith_char "/" a)) (split "/" a1) [] →
    lies_under a (a1 +:+ String "/" b)) as Hmain.
  { intros a1 Hs Hfold. split; [done|].
    unfold norm_comps. rewrite Hs, split_app, fold_left_app, Hfold.
    destruct (fold_norm_grows (startswith_char "/" a) (split "/" b)
      (fold_left (norm_step (startswith_char "/" a)) (split "/" a1) []) Hdd)
      as [extra ->].
    rewrite rev_app_distr. by apply prefix_app_r. }
  destruct (endswith_char "/" a) eqn:Hend.
  - destruct (endswith_char_inv _ _ Hend) as [a0 ->].
    rewrite append_assoc, append_cons, append_nil_l.
    apply (Hmain a0).
    + apply startswith_app_cons.
    + by rewrite split_app, fold_left_app.
  - apply (Hmain a); [|done].
    by apply startswith_app.
Qed.

(** ** Path resolution and the compression flag *)

(** C8: resolving a path and resolving it with leading separators put in
    front give the same physical path, for one separator, for any number
    of them, and for [/etc/hosts] against [etc/hosts]. *)
Theorem resolve_ignores_leading_separators (self : InsightsArchive)
    (p : string) :
  get_full_archive_path self (String "/" p) = get_full_archive_path self p
  ∧ (∀ n, get_full_archive_path self (slashes n +:+ p)
          = get_full_archive_path self p)
  ∧ get_full_archive_path self "/etc/hosts"
    = get_full_archive_path self "etc/hosts".
Proof.
  unfold get_full_archive_path. split_and!.
  - by rewrite lstrip_cons_same.
  - intros n. f_equal. induction n as [|n IH]; [done|].
    change (slashes (S n)) with (String "/" (slashes n)).
    by rewrite append_cons, lstrip_cons_same.
  - done.
Qed.

(** C9: the flag is z for gz, J for xz, j for bz2 and empty for none; any
    other compressor gets z, and it is this flag that goes into the tar
    command line. *)
Theorem compression_flag_table (self : InsightsArchive) (fa : bool) :
  get_compression_flag "gz" = "z"
  ∧ get_compression_flag "xz" = "J"
  ∧ get_compression_flag "bz2" = "j"
  ∧ get_compression_flag "none" = ""
  ∧ (∀ c, c ∉ ["gz"; "xz"; "bz2"; "none"] → get_compression_flag c = "z")
  ∧ ∃ rest, tar_command self fa
            = "tar c" +:+ get_compression_flag (compressor self) +:+ rest.
Proof.
  split_and!; try done.
  - intros c Hc. unfold get_compression_flag.
    rewrite !lookup_insert_ne, lookup_singleton_ne; [done|..];
      intros <-; apply Hc; set_solver.
  - by eexists.
Qed.

(** ** Ingestion of artifacts *)

Lemma state_eta (st : State) :
  mkState (fs st) (mapper_output st) (trace st) = st.
Proof. by destruct st. Qed.

(** The loop of [execute_mappers] always runs to its end: every mapper
    is called once, in order, and only the accumulator changes. *)
Lemma execute_mappers_loop (output path : string) (ms : list mapper_id)
    (st : State) :
  let ctx := mkContext (splitlines output) path in
  for_each ms (λ m,
    r ← attempt (invoke m ctx);
    match r with
    | Raise _ => mret tt
    | Return o => if truthy o then append_output m o else mret tt
    end) st
  = (mkState (fs st) (fold_left (collect ctx) ms (mapper_output st))
       (trace st ++ ((λ m, EvMapper m ctx) <$> ms)), Return tt).
Proof.
  intros ctx. revert st. induction ms as [|m ms IH]; intros st.
  - simpl. unfold mret, M_ret. by rewrite app_nil_r, state_eta.
  - cbn [for_each fold_left fmap list_fmap].
    unfold mbind at 1, M_bind at 1.
    unfold mbind at 1, M_bind at 1, attempt, invoke, collect.
    destruct (behaviour (mapper_at m) ctx) as [o|e]; cbn.
    + destruct (truthy o); cbn; rewrite IH; cbn;
        by rewrite <- app_assoc.
    + rewrite IH. cbn. by rewrite <- app_assoc.
Qed.

Lemma collect_raise ctx acc m e :
  behaviour (mapper_at m) ctx = Raise e → collect ctx acc m = acc.
Proof. intros H. unfold collect. by rewrite H. Qed.

Lemma collect_other ctx acc m m' :
  m ≠ m' → collect ctx acc m' !! m = acc !! m.
Proof.
  intros Hne. unfold collect.
  destruct (behaviour (mapper_at m') ctx) as [o|e]; [|done].
  destruct (truthy o); [|done]. by rewrite lookup_insert_ne.
Qed.

Lemma fold_collect_entry ctx ms acc m e :
  behaviour (mapper_at m) ctx = Raise e →
  fold_left (collect ctx) ms acc !! m = acc !! m.
Proof.
  intros H. revert acc. induction ms as [|m' ms IH]; intros acc; [done|].
  simpl. rewrite IH. destruct (decide (m = m')) as [<-|Hne].
  - by rewrite (collect_raise _ _ _ _ H).
  - by apply collect_other.
Qed.

Lemma fold_collect_skip ctx ms1 ms2 acc m e :
  behaviour (mapper_at m) ctx = Raise e →
  fold_left (collect ctx) (ms1 ++ m :: ms2) acc
  = fold_left (collect ctx) (ms1 ++ ms2) acc.
Proof.
  intros H. rewrite !fold_left_app. simpl.
  by rewrite (collect_raise _ _ _ _ H).
Qed.

(** C4: a mapper that raises is swallowed. The call returns normally, so
    whatever is ingested next runs from the state it leaves; the output
    file has been written, and written before any mapper ran; every mapper
    registered under the name is still called, those after the failing one
    included; the accumulator holds what the other mappers alone produce,
    and its entry for the failing mapper is untouched. *)
Theorem failing_mapper_is_isolated (self : InsightsArchive)
    (spec : InsightsSpec) (name output dest : string) (st : State)
    (ms1 ms2 : list mapper_id) (m : mapper_id) (e : exn) :
  get_output spec = Some output →
  truthy_str (Some output) = true →
  truthy_str (Some name) = true →
  add_to_archive_path self spec = Some dest →
  MAPPERS !! name = Some (ms1 ++ m :: ms2) →
  behaviour (mapper_at m) (mkContext (splitlines output) dest) = Raise e →
  let ctx := mkContext (splitlines output) dest in
  let res := add_to_archive self spec (Some name) st in
  res.2 = Return tt
  ∧ (∀ (B : Type) (next : M B),
       (add_to_archive self spec (Some name) ;; next) st = next res.1)
  ∧ fs res.1 = <[dest := File output]> (fs st)
  ∧ trace res.1
    = trace st ++ EvWrite dest output
                  :: ((λ m, EvMapper m ctx) <$> (ms1 ++ m :: ms2))
  ∧ mapper_output res.1 !! m = mapper_output st !! m
  ∧ mapper_output res.1
    = fold_left (collect ctx) (ms1 ++ ms2) (mapper_output st).
Proof.
  intros Hout Hto Htn Hdest Hreg Hraise ctx res.
  assert (∀ (B : Type) (next : M B),
    (add_to_archive self spec (Some name) ;; next) st
    = match res with
      | (st', Return _) => next st'
      | (st', Raise e) => (st', Raise e)
      end) as Hnext by done.
  revert Hnext.
  assert (res =
    (mkState (<[dest := File output]> (fs st))
       (fold_left (collect ctx) (ms1 ++ m :: ms2) (mapper_output st))
       (trace st ++ EvWrite dest output
                    :: ((λ m, EvMapper m ctx) <$> (ms1 ++ m :: ms2))),
     Return tt)) as ->.
  { unfold res, add_to_archive. rewrite Hout, Hto, Hdest, Htn. cbn.
    unfold execute_mappers. rewrite Hreg.
    unfold mbind at 1, M_bind at 1. cbn.
    unfold mbind at 1, M_bind at 1, write_data_to_file, modify. cbn.
    rewrite execute_mappers_loop. cbn. by rewrite <- app_assoc. }
  cbn. intros Hnext. split_and!; try done.
  - by rewrite (fold_collect_entry _ _ _ _ _ Hraise).
  - by apply fold_collect_skip with e.
Qed.

(** C5: when the provider yields nothing, or the empty text,
    [add_to_archive] is a no-op: the whole state is as before, so no file
    was written, no mapper was called and the accumulator is as it was. *)
Theorem no_output_changes_nothing (self : InsightsArchive)
    (spec : InsightsSpec) (name : option string) (st : State) :
  truthy_str (get_output spec) = false →
  add_to_archive self spec name st = (st, Return tt).
Proof. intros H. unfold add_to_archive. by rewrite H. Qed.

(** C10: a spec with no archive path that is neither a command nor a file
    leaves the local [archive_path] unassigned, and as soon as its provider
    yields output [add_to_archive] raises [UnboundLocalError], having
    written nothing. *)
Theorem unassigned_destination_raises (self : InsightsArchive)
    (spec : InsightsSpec) (name : option string) (st : State) :
  truthy_str (archive_path spec) = false →
  spec_cls spec = OtherSpec →
  add_to_archive_path self spec = None
  ∧ (truthy_str (get_output spec) = true →
     add_to_archive self spec name st = (st, Raise UnboundLocalError)).
Proof.
  intros Hap Hcls.
  assert (add_to_archive_path self spec = None) as Hnone.
  { unfold add_to_archive_path. by rewrite Hap, Hcls. }
  split; [done|]. intros Hout.
  unfold add_to_archive. by rewrite Hout, Hnone.
Qed.

(** ** Copying directories *)

(** C3, as the code runs: given a list with at least one element,
    [copy_dir] asks [os.path.isdir] about the list itself, which raises
    [TypeError]; nothing is copied, whatever the elements are. *)
Theorem copy_dir_list_raises (self : InsightsArchive) (d : string)
    (l : list string) (st : State) :
  copy_dir self (PList (d :: l)) st = (st, Raise TypeError).
Proof. reflexivity. Qed.

(** ** Packaging *)

(** [create_tar_file] step by step: the serialized accumulator is
    written, the command runs on the file system that holds it, and when
    the command returns, with whatever status, the archive directory is
    removed and the size of the tar file is asked for. *)
Lemma create_tar_file_run (self : InsightsArchive) (fa : bool) (st : State) :
  let out := join (archive_dir self) "output.json" in
  let data := serialize {[ hostname self := mapper_output st ]} in
  let argv := shlex_split (tar_command self fa) in
  let tr2 := trace st ++ [EvWrite out data; EvSubprocess argv] in
  create_tar_file self fa st =
    match run_command argv (<[out := File data]> (fs st)) with
    | (fs2, Raise e) => (mkState fs2 (mapper_output st) tr2, Raise e)
    | (fs2, Return _) =>
        let fs3 :=
          filter (λ kv, within (archive_dir self) kv.1 = false) fs2 in
        (mkState fs3 (mapper_output st)
           (tr2 ++ [EvRmtree (archive_dir self)]),
         match fs3 !! tar_file_name self with
         | Some _ => Return (tar_file_name self)
         | None => Raise OSError
         end)
    end.
Proof.
  intros out data argv tr2. unfold create_tar_file.
  unfold mbind at 1, M_bind at 1.
  unfold write_mapper_output, write_data_to_file, modify, get_state.
  unfold mbind at 1, M_bind at 1. cbn.
  unfold mbind at 1, M_bind at 1, subprocess_call. cbn.
  fold out data argv.
  destruct (run_command argv (<[out:=File data]> (fs st))) as [fs2 [rc|e]];
    unfold set_fs, log; cbn; [|by rewrite <- app_assoc].
  unfold mbind at 1, M_bind at 1. cbn.
  unfold mbind at 1, M_bind at 1, Os.path_getsize. cbn.
  unfold tr2. rewrite <- !app_assoc. cbn.
  destruct (filter _ fs2 !! tar_file_name self) as [[|c]|];
    unfold log, set_fs; cbn; by rewrite <- ?app_assoc.
Qed.

Lemma length_append (a b : string) :
  String.length (a +:+ b) = String.length a + String.length b.
Proof.
  induction a as [|x a IH]; [done|].
  rewrite append_cons. cbn [String.length]. lia.
Qed.

Lemma prefix_length (a b : string) :
  String.prefix a b = true → String.length a ≤ String.length b.
Proof.
  revert b. induction a as [|x a IH]; intros [|y b]; simpl; try (done || lia).
  destruct (ascii_dec x y); [|done].
  intros H%IH. lia.
Qed.

Lemma within_extension (d ext : string) :
  match ext with String c _ => Ascii.eqb c "/" = false | _ => False end →
  within d (d +:+ ext) = false.
Proof.
  intros Hext. unfold within. apply orb_false_iff. split.
  - apply String.eqb_neq. intros H.
    assert (String.length d = String.length (d +:+ ext)) as Hl by congruence.
    rewrite length_append in Hl. destruct ext; [done|]. simpl in Hl. lia.
  - rewrite prefix_app_cancel. destruct ext as [|c ext]; [done|].
    change (String.prefix "/" (String c ext))
      with (if ascii_dec "/" c then String.prefix "" ext else false).
    destruct (ascii_dec "/" c) as [<-|]; [|done].
    by rewrite Ascii.eqb_refl in Hext.
Qed.

Lemma within_shorter (d suffix : string) :
  suffix ≠ "" → within (d +:+ suffix) d = false.
Proof.
  intros Hne.
  assert (0 < String.length suffix) as Hpos
    by (destruct suffix; [done|simpl; lia]).
  unfold within. apply orb_false_iff. split.
  - apply String.eqb_neq. intros H.
    assert (String.length (d +:+ suffix) = String.length d) as Hl by congruence.
    rewrite length_append in Hl. lia.
  - destruct (String.prefix _ d) eqn:E; [|done].
    apply prefix_length in E. rewrite !length_append in E. lia.
Qed.

(** In a well-formed builder the archive directory is the root followed
    by a non-empty rest, so the root is not inside it. *)
Lemma well_formed_archive_dir (self : InsightsArchive) :
  well_formed self →
  ∃ suffix, suffix ≠ "" ∧ archive_dir self = tmp_dir self +:+ suffix.
Proof.
  intros ([n Htmp] & [now Hname] & Hdir & _).
  rewrite Hdir, Hname. unfold join.
  change (startswith_char "/" ("insights-" +:+ hostname self +:+ "-" +:+ now))
    with false. cbv iota.
  destruct (is_empty (tmp_dir self) || endswith_char "/" (tmp_dir self));
    (eexists; split; [|reflexivity]);
    intros Hs; cbv in Hs; discriminate Hs.
Qed.

Lemma tar_file_name_outside (self : InsightsArchive) :
  well_formed self →
  within (archive_dir self) (tar_file_name self) = false.
Proof.
  intros (_ & _ & Hdir & _). unfold tar_file_name. rewrite <- Hdir.
  by apply within_extension.
Qed.

Lemma tmp_dir_outside (self : InsightsArchive) :
  well_formed self → within (archive_dir self) (tmp_dir self) = false.
Proof.
  intros Hwf. destruct (well_formed_archive_dir self Hwf) as (sfx & Hne & ->).
  by apply within_shorter.
Qed.

Lemma lookup_rmtree (d p : string) (f : gmap string node) :
  filter (λ kv, within d kv.1 = false) f !! p
  = if within d p then None else f !! p.
Proof.
  destruct (within d p) eqn:Hw.
  - apply map_lookup_filter_None. right. intros x _. simpl. congruence.
  - destruct (f !! p) as [x|] eqn:Hp.
    + by apply map_lookup_filter_Some.
    + apply map_lookup_filter_None. by left.
Qed.

Lemma rmtree_absent (d : string) (f : gmap string node) :
  (∀ p, within d p = true → f !! p = None) →
  filter (λ kv, within d kv.1 = false) f = f.
Proof.
  intros Habs. apply map_eq. intros p. rewrite lookup_rmtree.
  destruct (within d p) eqn:Hw; [|done]. symmetry. by apply Habs.
Qed.

(** C1, as the code has it: with [full_archive] false, the default, the
    tar command is run over the root directory [tmp_dir]; with
    [full_archive] true it is run over the archive subdirectory
    [archive_dir]. It is the only command [create_tar_file] runs. *)
Theorem package_tar_directory (self : InsightsArchive) (st : State) :
  tar_command self false = tar_over self (tmp_dir self)
  ∧ tar_command self true = tar_over self (archive_dir self)
  ∧ runs_tar_over self (tmp_dir self)
      (trace (create_tar_file self false st).1)
  ∧ runs_tar_over self (archive_dir self)
      (trace (create_tar_file self true st).1)
  ∧ ∀ fa, ∃ before after,
      trace (create_tar_file self fa st).1
      = trace st ++ before
        ++ EvSubprocess (shlex_split (tar_command self fa)) :: after
      ∧ forallb (λ e, negb (is_subprocess e)) (before ++ after) = true.
Proof.
  assert (∀ fa, ∃ before after,
      trace (create_tar_file self fa st).1
      = trace st ++ before
        ++ EvSubprocess (shlex_split (tar_command self fa)) :: after
      ∧ forallb (λ e, negb (is_subprocess e)) (before ++ after) = true)
    as Htrace.
  { intros fa. rewrite create_tar_file_run.
    destruct (run_command _ _) as [fs2 [rc|e]]; cbn.
    - eexists [_], [_]. split; [by rewrite <- app_assoc | done].
    - eexists [_], []. split; [reflexivity | done]. }
  split_and!; try done.
  - destruct (Htrace false) as (before & after & -> & _).
    unfold runs_tar_over. set_solver.
  - destruct (Htrace true) as (before & after & -> & _).
    unfold runs_tar_over. set_solver.
Qed.

(** C6: [create_tar_file] begins by writing the serialization of
    [{hostname: mapper_output}] to [output.json] in the archive directory;
    the tar command comes next in the trace and runs on the file system
    that holds this file. With an empty accumulator what is serialized is
    the empty dictionary under the hostname. *)
Theorem accumulator_serialized_before_tar (self : InsightsArchive)
    (fa : bool) (st : State) :
  let out := join (archive_dir self) "output.json" in
  let data := serialize {[ hostname self := mapper_output st ]} in
  let argv := shlex_split (tar_command self fa) in
  let res := create_tar_file self fa st in
  lies_under (archive_dir self) out
  ∧ write_mapper_output self st
    = (mkState (<[out := File data]> (fs st)) (mapper_output st)
         (trace st ++ [EvWrite out data]), Return tt)
  ∧ (∃ rest,
       trace res.1 = trace st ++ EvWrite out data :: EvSubprocess argv :: rest)
  ∧ (<[out := File data]> (fs st)) !! out = Some (File data)
  ∧ (∃ fs2 r,
       run_command argv (<[out := File data]> (fs st)) = (fs2, r)
       ∧ fs res.1
         = match r with
           | Return _ =>
               filter (λ kv, within (archive_dir self) kv.1 = false) fs2
           | Raise _ => fs2
           end)
  ∧ (mapper_output st = ∅ →
     data = serialize {[ hostname self := ∅ ]}).
Proof.
  intros out data argv res. split_and!.
  - by apply lies_under_join.
  - done.
  - unfold res. rewrite create_tar_file_run. fold out data argv.
    destruct (run_command _ _) as [fs2 [rc|e]]; cbn.
    + eexists [_]. by rewrite <- app_assoc.
    + by eexists [].
  - apply lookup_insert_eq.
  - unfold res. rewrite create_tar_file_run. fold out data argv.
    destruct (run_command _ _) as [fs2 [rc|e]]; cbn; by eexists _, _.
  - intros Hempty. unfold data. by rewrite Hempty.
Qed.

(** C7: once the tar command has returned, whatever its exit status, the
    archive directory and everything in it is gone; every other path,
    the root directory and the tar file among them, is as the tar command
    left it, and the removal is the last effect. The removal itself never
    raises and changes nothing when the tree is already missing. *)
Theorem archive_dir_removed_after_tar (self : InsightsArchive) (fa : bool)
    (st : State) (fs2 : gmap string node) (rc : Z) :
  well_formed self →
  run_command (shlex_split (tar_command self fa))
    (fs (write_mapper_output self st).1) = (fs2, Return rc) →
  let res := create_tar_file self fa st in
  (∀ p, within (archive_dir self) p = true → fs res.1 !! p = None)
  ∧ (∀ p, within (archive_dir self) p = false → fs res.1 !! p = fs2 !! p)
  ∧ fs res.1 !! tmp_dir self = fs2 !! tmp_dir self
  ∧ fs res.1 !! tar_file_name self = fs2 !! tar_file_name self
  ∧ String.prefix (tmp_dir self) (tar_file_name self) = true
  ∧ (is_Some (fs2 !! tar_file_name self) →
     res.2 = Return (tar_file_name self))
  ∧ last (trace res.1) = Some (EvRmtree (archive_dir self))
  ∧ (∀ st0, (delete_archive_dir self st0).2 = Return tt)
  ∧ (∀ st0,
       (∀ p, within (archive_dir self) p = true → fs st0 !! p = None) →
       fs (delete_archive_dir self st0).1 = fs st0).
Proof.
  intros Hwf Hrun res.
  assert (res =
    (mkState (filter (λ kv, within (archive_dir self) kv.1 = false) fs2)
       (mapper_output st)
       ((trace st ++
         [EvWrite (join (archive_dir self) "output.json")
            (serialize {[ hostname self := mapper_output st ]});
          EvSubprocess (shlex_split (tar_command self fa))])
        ++ [EvRmtree (archive_dir self)]),
     match filter (λ kv, within (archive_dir self) kv.1 = false) fs2
           !! tar_file_name self with
     | Some _ => Return (tar_file_name self)
     | None => Raise OSError
     end)) as ->.
  { unfold res. rewrite create_tar_file_run.
    change (fs (write_mapper_output self st).1)
      with (<[join (archive_dir self) "output.json" :=
                File (serialize {[ hostname self := mapper_output st ]})]>
              (fs st)) in Hrun.
    by rewrite Hrun. }
  cbn [fst snd fs trace].
  pose proof (tar_file_name_outside self Hwf) as Htar.
  pose proof (tmp_dir_outside self Hwf) as Htmp.
  split_and!.
  - intros p Hp. by rewrite lookup_rmtree, Hp.
  - intros p Hp. by rewrite lookup_rmtree, Hp.
  - by rewrite lookup_rmtree, Htmp.
  - by rewrite lookup_rmtree, Htar.
  - destruct (well_formed_archive_dir self Hwf) as (sfx & _ & Hsfx).
    destruct Hwf as (_ & _ & Hdir & _).
    unfold tar_file_name. rewrite <- Hdir, Hsfx, append_assoc.
    apply prefix_app.
  - intros [x Hx]. by rewrite lookup_rmtree, Htar, Hx.
  - apply last_snoc.
  - done.
  - intros st0 Habs. cbn. by apply rmtree_absent.
Qed.

(** ** [os.path.dirname] of a path inside a directory *)

Lemma dirname_aux_app (a b : string) :
  Os.dirname_aux (a +:+ String "/" b)
  = Some (a +:+ String "/" (default "" (Os.dirname_aux b))).
Proof.
  induction a as [|x a IH].
  - rewrite !append_nil_l. simpl. by destruct (Os.dirname_aux b).
  - rewrite !append_cons. simpl. by rewrite IH.
Qed.

Lemma dirname_aux_some (b hb : string) :
  Os.dirname_aux b = Some hb →
  ∃ hb0 t, hb = hb0 +:+ "/" ∧ b = hb0 +:+ String "/" t.
Proof.
  revert hb. induction b as [|x b IH]; intros hb; [done|].
  simpl. destruct (Os.dirname_aux b) as [d|].
  - intros [= <-]. destruct (IH d eq_refl) as (d0 & t & -> & ->).
    by exists (String x d0), t.
  - destruct (Ascii.eqb x "/") eqn:E; [|done].
    apply Ascii.eqb_eq in E as ->. intros [= <-]. by exists "", b.
Qed.

Lemma dirname_aux_none (b : string) :
  Os.dirname_aux b = None → startswith_char "/" b = false.
Proof.
  destruct b as [|x b]; [done|]. simpl.
  destruct (Os.dirname_aux b); [done|]. by destruct (Ascii.eqb x "/").
Qed.

Lemma rstrip_slash_rev_spec (r0 : list ascii) :
  ∃ k, r0 = replicate k "/"%char ++ Os.rstrip_slash_rev r0.
Proof.
  induction r0 as [|a r0 [k IH]]; [by exists 0|].
  simpl. destruct (Ascii.eqb a "/") eqn:E.
  - apply Ascii.eqb_eq in E as ->. exists (S k). simpl. by rewrite <- IH.
  - by exists 0.
Qed.

Lemma string_of_list_ascii_app (l1 l2 : list ascii) :
  string_of_list_ascii (l1 ++ l2)
  = string_of_list_ascii l1 +:+ string_of_list_ascii l2.
Proof.
  induction l1 as [|a l1 IH]; [done|]. simpl. by rewrite append_cons, IH.
Qed.

Lemma string_of_replicate_slash (k : nat) :
  string_of_list_ascii (replicate k "/"%char) = slashes k.
Proof. induction k as [|k IH]; [done|]. simpl. by rewrite IH. Qed.

Lemma rev_replicate {A : Type} (k : nat) (x : A) :
  rev (replicate k x) = replicate k x.
Proof.
  induction k as [|k IH]; [done|]. simpl. rewrite IH.
  clear IH. induction k as [|k IH]; [done|]. simpl. by rewrite IH.
Qed.

(** Stripping the trailing separators of [h] leaves a string that [h]
    extends by separators only. *)
Lemma rstrip_decompose (h : string) :
  ∃ k, h = string_of_list_ascii
             (rev (Os.rstrip_slash_rev (rev (list_ascii_of_string h))))
           +:+ slashes k.
Proof.
  destruct (rstrip_slash_rev_spec (rev (list_ascii_of_string h))) as [k Hk].
  exists k. rewrite <- string_of_replicate_slash, <- string_of_list_ascii_app.
  rewrite <- (rev_replicate k "/"%char), <- rev_app_distr, <- Hk.
  by rewrite rev_involutive, string_of_list_ascii_of_string.
Qed.

Lemma split_slashes (k : nat) : split "/" (slashes k) = replicate (S k) "".
Proof. induction k as [|k IH]; [done|]. simpl. by rewrite IH. Qed.

Lemma fold_norm_blank absolute k stack :
  fold_left (norm_step absolute) (replicate k "") stack = stack.
Proof.
  revert stack. induction k as [|k IH]; intros stack; [done|].
  cbn [replicate fold_left].
  change (norm_step absolute stack "") with stack. apply IH.
Qed.

Lemma fold_split_slashes absolute (h : string) (k : nat) stack :
  fold_left (norm_step absolute) (split "/" (h +:+ slashes k)) stack
  = fold_left (norm_step absolute) (split "/" h) stack.
Proof.
  destruct k as [|k]; [by rewrite append_nil_r|].
  change (slashes (S k)) with (String "/" (slashes k)).
  by rewrite split_app, fold_left_app, split_slashes, fold_norm_blank.
Qed.

(** [dirname] of a path whose head up to the last separator is [h]. *)
Lemma path_dirname_head (s h : string) :
  Os.dirname_aux s = Some h →
  startswith_char "/" (Os.path_dirname s) = startswith_char "/" h
  ∧ ∀ absolute stack,
      fold_left (norm_step absolute) (split "/" (Os.path_dirname s)) stack
      = fold_left (norm_step absolute) (split "/" h) stack.
Proof.
  intros Hh. unfold Os.path_dirname. rewrite Hh.
  destruct (rstrip_decompose h) as [k Hk].
  destruct (Os.rstrip_slash_rev (rev (list_ascii_of_string h)))
    as [|c r] eqn:Hr; [done|].
  set (h' := string_of_list_ascii (rev (c :: r))) in *.
  assert (is_empty h' = false) as Hne.
  { unfold h'. simpl. rewrite string_of_list_ascii_app.
    by destruct (string_of_list_ascii (rev r)). }
  split.
  - rewrite Hk. symmetry. by apply startswith_app.
  - intros absolute stack. rewrite Hk. by rewrite fold_split_slashes.
Qed.

(** The directory part of a path joined onto [a] is still inside [a]. *)
Lemma lies_under_dirname_join (a b : string) :
  startswith_char "/" b = false → has_dotdot b = false →
  lies_under a (Os.path_dirname (join a b)).
Proof.
  intros Hrel Hdd.
  assert (∀ a1,
    startswith_char "/" (a1 +:+ String "/" b) = startswith_char "/" a →
    fold_left (norm_step (startswith_char "/" a)) (split "/" a) []
      = fold_left (norm_step (startswith_char "/" a)) (split "/" a1) [] →
    lies_under a (Os.path_dirname (a1 +:+ String "/" b))) as Hmain.
  { intros a1 Hs Hfold.
    pose proof (dirname_aux_app a1 b) as Hd.
    destruct (path_dirname_head _ _ Hd) as [Hsw Hnorm].
    split.
    { rewrite Hsw, <- Hs. apply startswith_app_cons. }
    unfold norm_comps. rewrite Hnorm, Hsw.
    rewrite (startswith_app_cons "/" a1 "/" _ b), Hs, split_app, fold_left_app.
    rewrite <- Hfold.
    assert (existsb (String.eqb "..")
              (split "/" (default "" (Os.dirname_aux b))) = false) as Hdd'.
    { destruct (Os.dirname_aux b) as [hb|] eqn:Hb; [|done].
      destruct (dirname_aux_some _ _ Hb) as (hb0 & t & -> & ->).
      unfold has_dotdot in Hdd. rewrite split_app, existsb_app in Hdd.
      apply orb_false_iff in Hdd as [Hdd _].
      change (default "" (Some (hb0 +:+ "/")))
        with (hb0 +:+ String "/" "").
      rewrite split_app, existsb_app, Hdd. done. }
    destruct (fold_norm_grows (startswith_char "/" a) _
      (fold_left (norm_step (startswith_char "/" a)) (split "/" a) []) Hdd')
      as [extra ->].
    rewrite rev_app_distr. by apply prefix_app_r. }
  unfold join. rewrite Hrel.
  destruct (is_empty a) eqn:Hemp; simpl.
  { destruct a; [|done]. rewrite append_nil_l. split; [|apply prefix_nil].
    destruct (Os.dirname_aux b) as [hb|] eqn:Hb.
    - destruct (path_dirname_head _ _ Hb) as [-> _].
      destruct (dirname_aux_some _ _ Hb) as (hb0 & t & -> & ->).
      change (hb0 +:+ "/") with (hb0 +:+ String "/" "").
      by rewrite (startswith_app_cons "/" hb0 "/" "" t).
    - unfold Os.path_dirname. by rewrite Hb. }
  destruct (endswith_char "/" a) eqn:Hend.
  - destruct (endswith_char_inv _ _ Hend) as [a0 ->].
    rewrite append_assoc, append_cons, append_nil_l.
    apply (Hmain a0).
    + apply startswith_app_cons.
    + by rewrite split_app, fold_left_app.
  - apply (Hmain a); [|done].
    by apply startswith_app.
Qed.

(** ** Where the ingestion operations write *)

Lemma writes_within_silent {A : Type} (d : string) (m : M A) (st : State) :
  trace (m st).1 = trace st → writes_within d m st.
Proof.
  intros Htr. exists []. split; [by rewrite app_nil_r | apply Forall_nil_2].
Qed.

Lemma writes_within_one {A : Type} (d p : string) (e : event) (m : M A)
    (st : State) :
  trace (m st).1 = trace st ++ [e] → written e = Some p → lies_under d p →
  writes_within d m st.
Proof.
  intros Htr He Hp. exists [e]. split; [done|].
  unfold written_paths. simpl. rewrite He. by apply Forall_singleton.
Qed.

Lemma writes_within_ret {A : Type} (d : string) (a : A) (st : State) :
  writes_within d (mret a) st.
Proof. by apply writes_within_silent. Qed.

Lemma writes_within_bind {A B : Type} (d : string) (m : M A) (k : A → M B)
    (st : State) :
  writes_within d m st →
  (∀ a st', writes_within d (k a) st') →
  writes_within d (m ≫= k) st.
Proof.
  intros (new1 & Htr1 & Hall1) Hk. unfold writes_within, mbind, M_bind.
  destruct (m st) as [st1 [a|e]]; cbn in *.
  - destruct (Hk a st1) as (new2 & Htr2 & Hall2).
    exists (new1 ++ new2). split.
    + by rewrite Htr2, Htr1, <- app_assoc.
    + unfold written_paths in *. rewrite omap_app. by apply Forall_app.
  - by exists new1.
Qed.

Lemma writes_within_get_state {A : Type} (d : string) (k : State → M A)
    (st : State) :
  writes_within d (k st) st → writes_within d (get_state ≫= k) st.
Proof. done. Qed.

Lemma writes_within_try_except_pass (d : string) (catches : exn → bool)
    (m : M unit) (st : State) :
  writes_within d m st → writes_within d (try_except_pass catches m) st.
Proof.
  unfold writes_within, try_except_pass.
  destruct (m st) as [st' [[]|e]]; [done|]. by destruct (catches e).
Qed.

Lemma writes_within_for_each {A : Type} (d : string) (l : list A)
    (body : A → M unit) :
  Forall (λ x, ∀ st, writes_within d (body x) st) l →
  ∀ st, writes_within d (for_each l body) st.
Proof.
  induction 1 as [|x l Hx Hl IH]; intros st.
  - apply writes_within_ret.
  - simpl. apply writes_within_bind; [apply Hx | intros _; apply IH].
Qed.

Lemma writes_within_makedirs (d p : string) (st : State) :
  lies_under d p → writes_within d (Os.makedirs p) st.
Proof.
  intros Hp. destruct (fs st !! p) as [n|] eqn:E.
  - apply writes_within_silent. unfold Os.makedirs. by rewrite E.
  - apply (writes_within_one d p (EvMakedirs p)); [|done..].
    unfold Os.makedirs. by rewrite E.
Qed.

Lemma writes_within_copyfile (d src dst : string) (st : State) :
  lies_under d dst → writes_within d (Shutil.copyfile src dst) st.
Proof.
  intros Hp.
  destruct (String.eqb src dst) eqn:Heq;
    [|destruct (fs st !! src) as [[|c]|] eqn:E;
      [|destruct (Shutil.can_open_for_writing (fs st) dst) eqn:Hw|]].
  - apply writes_within_silent. unfold Shutil.copyfile. by rewrite Heq.
  - apply writes_within_silent. unfold Shutil.copyfile. by rewrite Heq, E.
  - apply (writes_within_one d dst (EvCopyfile src dst)); [|done..].
    unfold Shutil.copyfile. by rewrite Heq, E, Hw.
  - apply writes_within_silent. unfold Shutil.copyfile. by rewrite Heq, E, Hw.
  - apply writes_within_silent. unfold Shutil.copyfile. by rewrite Heq, E.
Qed.

Lemma writes_within_write (d data p : string) (st : State) :
  lies_under d p → writes_within d (write_data_to_file data p) st.
Proof.
  intros Hp. by apply (writes_within_one d p (EvWrite p data)).
Qed.

Lemma writes_within_execute_mappers (d : string) (self : InsightsArchive)
    (name output path : string) (st : State) :
  writes_within d (execute_mappers self name output path) st.
Proof.
  unfold execute_mappers. destruct (MAPPERS !! name) as [ms|].
  - exists ((λ m, EvMapper m (mkContext (splitlines output) path)) <$> ms).
    rewrite execute_mappers_loop. split; [done|].
    induction ms as [|m ms IH]; [apply Forall_nil_2 | done].
  - apply writes_within_ret.
Qed.

Lemma full_archive_path_under (self : InsightsArchive) (p : string) :
  has_dotdot p = false →
  lies_under (archive_dir self) (get_full_archive_path self p).
Proof.
  intros Hdd. apply lies_under_join.
  - apply lstrip_not_startswith.
  - by apply has_dotdot_lstrip.
Qed.

Lemma command_path_under (self : InsightsArchive) (p : string) :
  well_formed self → has_dotdot p = false →
  lies_under (archive_dir self) (join (cmd_dir self) (lstrip "/" p)).
Proof.
  intros (_ & _ & _ & Hcmd) Hdd.
  apply lies_under_trans with (cmd_dir self).
  - rewrite Hcmd. by apply lies_under_join.
  - apply lies_under_join.
    + apply lstrip_not_startswith.
    + by apply has_dotdot_lstrip.
Qed.

Lemma add_to_archive_path_under (self : InsightsArchive) (spec : InsightsSpec)
    (d : string) :
  well_formed self →
  forallb (λ p, negb (has_dotdot p)) (spec_paths spec) = true →
  add_to_archive_path self spec = Some d →
  lies_under (archive_dir self) d.
Proof.
  intros Hwf Hall. unfold add_to_archive_path, spec_paths in *.
  rewrite forallb_app in Hall. apply andb_true_iff in Hall as [Hap Hcls].
  destruct (archive_path spec) as [ap|]; simpl.
  - simpl in Hap. rewrite andb_true_r in Hap. apply negb_true_iff in Hap.
    destruct (negb (is_empty ap)).
    + intros [= <-]. apply full_archive_path_under.
      by apply has_dotdot_lstrip.
    + destruct (spec_cls spec) as [mc|rp|]; [| |done]; intros [= <-];
        simpl in Hcls; rewrite andb_true_r in Hcls;
        apply negb_true_iff in Hcls.
      * by apply command_path_under.
      * apply full_archive_path_under. by apply has_dotdot_lstrip.
  - destruct (spec_cls spec) as [mc|rp|]; [| |done]; intros [= <-];
      simpl in Hcls; rewrite andb_true_r in Hcls;
      apply negb_true_iff in Hcls.
    + by apply command_path_under.
    + apply full_archive_path_under. by apply has_dotdot_lstrip.
Qed.

Lemma writes_within_copy_one (self : InsightsArchive) (p : string)
    (st : State) :
  has_dotdot p = false →
  writes_within (archive_dir self) (_copy_file self p) st.
Proof.
  intros Hdd. unfold _copy_file.
  apply writes_within_bind.
  { apply writes_within_try_except_pass, writes_within_makedirs.
    unfold get_full_archive_path. apply lies_under_dirname_join.
    - apply lstrip_not_startswith.
    - by apply has_dotdot_lstrip. }
  intros _ st1. apply writes_within_bind.
  { by apply writes_within_copyfile, full_archive_path_under. }
  intros _ st2. apply writes_within_ret.
Qed.

(** C2, as the code has it: an input path none of whose components is
    [..] is resolved to a location inside [archive_dir], and with such
    inputs [add_metadata_to_archive], [add_to_archive] and [copy_file]
    create or overwrite paths inside [archive_dir] only. For every input,
    the resolved path is [archive_dir], a separator unless [archive_dir]
    ends in one, and the input without its leading separators; so it
    begins with [archive_dir] as text and a leading separator never
    replaces it. *)
Theorem ingestion_writes_stay_in_archive_dir (self : InsightsArchive) :
  well_formed self →
  (∀ p, has_dotdot p = false →
        lies_under (archive_dir self) (get_full_archive_path self p))
  ∧ (∀ metadata p st, has_dotdot p = false →
       writes_within (archive_dir self)
         (add_metadata_to_archive self metadata p) st)
  ∧ (∀ spec name st,
       forallb (λ p, negb (has_dotdot p)) (spec_paths spec) = true →
       writes_within (archive_dir self) (add_to_archive self spec name) st)
  ∧ (∀ p st, has_dotdot p = false →
       (∀ ps, _expand_paths p (fs st) = Some ps →
              Forall (λ q, has_dotdot q = false) ps) →
       writes_within (archive_dir self) (copy_file self p) st)
  ∧ (∀ p, String.prefix (archive_dir self) (get_full_archive_path self p)
          = true)
  ∧ (∀ p, get_full_archive_path self p
          = archive_dir self
            +:+ (if endswith_char "/" (archive_dir self) then "" else "/")
            +:+ lstrip "/" p).
Proof.
  intros Hwf. split_and!.
  - intros p. apply full_archive_path_under.
  - intros metadata p st Hdd. unfold add_metadata_to_archive.
    apply writes_within_write, full_archive_path_under.
    by apply has_dotdot_lstrip.
  - intros spec name st Hall. unfold add_to_archive.
    destruct (truthy_str (get_output spec)); [|apply writes_within_ret].
    destruct (add_to_archive_path self spec) as [d|] eqn:Hd.
    + pose proof (add_to_archive_path_under self spec d Hwf Hall Hd) as Hu.
      change (read_local (Some d) ≫= ?k) with (k d). cbv beta.
      apply writes_within_bind; [by apply writes_within_write|].
      intros _ st2. destruct (truthy_str name);
        [apply writes_within_execute_mappers | apply writes_within_ret].
    + by apply writes_within_silent.
  - intros p st Hdd Hglob. unfold copy_file.
    destruct (contains_char "*" p).
    + apply writes_within_get_state.
      destruct (_expand_paths p (fs st)) as [[|q qs]|] eqn:Hps;
        try apply writes_within_ret.
      apply writes_within_bind; [|intros _ st1; apply writes_within_ret].
      apply writes_within_for_each.
      eapply Forall_impl; [by apply Hglob|].
      intros q' Hq' st1. cbv beta.
      apply writes_within_bind; [by apply writes_within_copy_one|].
      intros r st2. apply writes_within_ret.
    + apply writes_within_bind; [by apply writes_within_silent|].
      intros [|] st1; [|apply writes_within_ret].
      apply writes_within_bind; [by apply writes_within_copy_one|].
      intros r st2. apply writes_within_ret.
  - intros p. unfold get_full_archive_path, join.
    rewrite lstrip_not_startswith.
    destruct (is_empty _ || endswith_char _ _); apply prefix_app.
  - intros p. unfold get_full_archive_path, join.
    rewrite lstrip_not_startswith.
    assert (is_empty (archive_dir self) = false) as ->.
    { destruct (well_formed_archive_dir self Hwf) as (sfx & _ & ->).
      destruct Hwf as ([name ->] & _). done. }
    by destruct (endswith_char "/" (archive_dir self)).
Qed.

(** ** Further properties: path resolution *)

Lemma fold_norm_exact absolute comps stack :
  existsb (String.eqb "..") comps = false →
  fold_left (norm_step absolute) comps stack
  = rev (List.filter (λ c, negb (String.eqb c "" || String.eqb c "."))
           comps) ++ stack.
Proof.
  revert stack. induction comps as [|y ys IH]; intros stack H; [done|].
  cbn [existsb] in H. apply orb_false_iff in H as [Hy Hys].
  cbn [fold_left List.filter].
  assert (norm_step absolute stack y
          = if String.eqb y "" || String.eqb y "." then stack
            else y :: stack) as ->.
  { unfold norm_step. destruct (String.eqb y "" || String.eqb y "."); [done|].
    by rewrite String.eqb_sym, Hy. }
  destruct (String.eqb y "" || String.eqb y "."); cbn [negb].
  - by apply IH.
  - rewrite IH by done. cbn [rev]. by rewrite <- app_assoc.
Qed.

(** Without [..] components, normalising keeps the components that name
    something. *)
Lemma norm_comps_clean p :
  has_dotdot p = false → norm_comps p = clean_comps p.
Proof.
  intros H. unfold norm_comps, clean_comps.
  rewrite fold_norm_exact by done. by rewrite app_nil_r, rev_involutive.
Qed.

Lemma clean_comps_app a b :
  clean_comps (a +:+ String "/" b) = clean_comps a ++ clean_comps b.
Proof. unfold clean_comps. by rewrite split_app, List.filter_app. Qed.

Lemma has_dotdot_app a b :
  has_dotdot (a +:+ String "/" b) = has_dotdot a || has_dotdot b.
Proof. unfold has_dotdot. by rewrite split_app, existsb_app. Qed.

Lemma clean_comps_lstrip p : clean_comps (lstrip "/" p) = clean_comps p.
Proof.
  unfold clean_comps. destruct (split_lstrip p) as [k ->].
  rewrite List.filter_app.
  assert (List.filter (λ c, negb (String.eqb c "" || String.eqb c "."))
            (replicate k "") = []) as ->; [|done].
  induction k as [|k IH]; [done|]. exact IH.
Qed.

Lemma clean_comps_var_tmp r :
  clean_comps ("/var/tmp/" +:+ r) = "var" :: "tmp" :: clean_comps r.
Proof.
  change ("/var/tmp/" +:+ r)
    with ("" +:+ String "/" ("var" +:+ String "/" ("tmp" +:+ String "/" r))).
  by rewrite !clean_comps_app.
Qed.

Lemma join_relative a b :
  startswith_char "/" b = false →
  clean_comps (join a b) = clean_comps a ++ clean_comps b
  ∧ has_dotdot (join a b) = has_dotdot a || has_dotdot b
  ∧ startswith_char "/" (join a b) = startswith_char "/" a.
Proof.
  intros Hrel. unfold join. rewrite Hrel.
  destruct (is_empty a) eqn:Hemp; simpl.
  { destruct a; [|done]. by rewrite append_nil_l. }
  destruct (endswith_char "/" a) eqn:Hend.
  - destruct (endswith_char_inv _ _ Hend) as [a0 ->].
    rewrite append_assoc, append_cons, append_nil_l.
    rewrite !clean_comps_app, !has_dotdot_app.
    change (clean_comps "") with (@nil string).
    change (has_dotdot "") with false.
    rewrite app_nil_r, orb_false_r. split_and!; [done | done |].
    apply startswith_app_cons.
  - change ("/" +:+ b) with (String "/" b).
    rewrite clean_comps_app, has_dotdot_app. split_and!; [done | done |].
    by apply startswith_app.
Qed.

(** Where a resolved path points: the components of the archive
    directory, then those of the input. *)
Lemma resolved_comps (self : InsightsArchive) (p : string) :
  has_dotdot (archive_dir self) = false → has_dotdot p = false →
  norm_comps (get_full_archive_path self p)
  = clean_comps (archive_dir self) ++ clean_comps p.
Proof.
  intros Ha Hp. unfold get_full_archive_path.
  destruct (join_relative (archive_dir self) (lstrip "/" p)
              (lstrip_not_startswith "/" p)) as (Hc & Hd & _).
  rewrite norm_comps_clean.
  - by rewrite Hc, clean_comps_lstrip.
  - by rewrite Hd, Ha, has_dotdot_lstrip.
Qed.

Lemma archive_dir_comps (self : InsightsArchive) :
  well_formed self →
  startswith_char "/" (archive_dir self) = true
  ∧ ∃ rest, clean_comps (archive_dir self) = "var" :: "tmp" :: rest.
Proof.
  intros Hwf. destruct (well_formed_archive_dir self Hwf) as (sfx & _ & ->).
  destruct Hwf as ([name ->] & _). rewrite append_assoc. split; [done|].
  rewrite clean_comps_var_tmp. by eexists.
Qed.

(** X1: where an input resolves to. For a well-formed builder whose
    archive directory has no [..] component and inputs that have none,
    the resolved path is absolute and its normalised components (those
    of [os.path.normpath]) are the ones of the archive directory followed
    by the components of the input, the empty and the [.] ones dropped.
    So two inputs resolve to one location exactly when they have the
    same such components, however they are spelled. *)
Theorem resolve_same_location (self : InsightsArchive) (p q : string) :
  well_formed self →
  has_dotdot (archive_dir self) = false →
  has_dotdot p = false → has_dotdot q = false →
  startswith_char "/" (get_full_archive_path self p) = true
  ∧ norm_comps (get_full_archive_path self p)
    = norm_comps (archive_dir self) ++ clean_comps p
  ∧ (norm_comps (get_full_archive_path self p)
     = norm_comps (get_full_archive_path self q)
     ↔ clean_comps p = clean_comps q).
Proof.
  intros Hwf Ha Hp Hq. split_and!.
  - destruct (join_relative (archive_dir self) (lstrip "/" p)
                (lstrip_not_startswith "/" p)) as (_ & _ & Hs).
    unfold get_full_archive_path. rewrite Hs.
    by destruct (archive_dir_comps self Hwf).
  - by rewrite resolved_comps, norm_comps_clean.
  - rewrite !resolved_comps by done. split; [|by intros ->].
    apply app_inv_head.
Qed.

(** In a well-formed builder no path resolves to itself. *)
Lemma full_archive_path_differs (self : InsightsArchive) (p : string) :
  well_formed self → get_full_archive_path self p ≠ p.
Proof.
  intros Hwf Heq.
  destruct (well_formed_archive_dir self Hwf) as (sfx & _ & Hsfx).
  destruct Hwf as ([name Hname] & _).
  assert (∃ t, String.length (lstrip "/" p) ≤ String.length t
               ∧ "/var/tmp/" +:+ (name +:+ sfx +:+ t) = p) as (t & Hlen & Hp).
  { unfold get_full_archive_path, join in Heq.
    rewrite lstrip_not_startswith, Hsfx, Hname in Heq.
    destruct (is_empty _ || endswith_char _ _).
    - exists (lstrip "/" p). split; [done|].
      by rewrite <- Heq at 2; rewrite !append_assoc.
    - exists ("/" +:+ lstrip "/" p). split.
      + rewrite length_append. lia.
      + by rewrite <- Heq at 2; rewrite !append_assoc. }
  assert (lstrip "/" p = "var/tmp/" +:+ (name +:+ sfx +:+ t)) as HL
    by (by rewrite <- Hp at 1).
  rewrite HL, !length_append in Hlen. simpl in Hlen. lia.
Qed.

Lemma flag_empty_iff_none (c : string) :
  get_compression_flag c = "" ↔ c = "none".
Proof.
  split; [|by intros ->].
  unfold get_compression_flag.
  destruct (decide (c = "gz")) as [->|]; [done|].
  destruct (decide (c = "xz")) as [->|]; [done|].
  destruct (decide (c = "bz2")) as [->|]; [done|].
  destruct (decide (c = "none")) as [->|]; [done|].
  by rewrite !lookup_insert_ne, lookup_singleton_ne.
Qed.

(** X2: the compression flag is always one of z, J, j or the empty
    string, and it is empty exactly for the compressor "none", which is
    also the one case where the tar file gets no compression suffix. *)
Theorem compression_flag_range (self : InsightsArchive) :
  (∀ c, get_compression_flag c ∈ ["z"; "J"; "j"; ""])
  ∧ (∀ c, get_compression_flag c = "" ↔ c = "none")
  ∧ (tar_file_name self = join (tmp_dir self) (archive_name self) +:+ ".tar"
     ↔ get_compression_flag (compressor self) = "").
Proof using Type.
  split_and!.
  - intros c. unfold get_compression_flag.
    destruct (decide (c = "gz")) as [->|]; [by repeat constructor|].
    destruct (decide (c = "xz")) as [->|]; [by repeat constructor|].
    destruct (decide (c = "bz2")) as [->|]; [by repeat constructor|].
    destruct (decide (c = "none")) as [->|]; [by repeat constructor|].
    rewrite !lookup_insert_ne, lookup_singleton_ne by done. by repeat constructor.
  - apply flag_empty_iff_none.
  - rewrite flag_empty_iff_none. unfold tar_file_name.
    rewrite <- (append_nil_r (_ +:+ ".tar")), append_assoc.
    destruct (String.eqb (compressor self) "none") eqn:E.
    + apply String.eqb_eq in E. by split.
    + apply String.eqb_neq in E. split; [|done]. intros H.
      do 2 apply String.app_inj in H. done.
Qed.

(** ** Further properties: mappers and the accumulator *)

(** X3: of mappers that return a plain value or raise. An exception
    raised by a mapper call never leaves [execute_mappers] and never
    stops the loop: the method returns normally after calling the mappers
    registered under the name once each, in registry order, all on the
    lines of the output and the path it was written to; it calls nothing
    for a name that is not registered. *)
Theorem mapper_exceptions_never_escape (self : InsightsArchive)
    (name output path : string) (st : State) :
  let res := execute_mappers self name output path st in
  res.2 = Return tt
  ∧ trace res.1
    = trace st ++ ((λ m, EvMapper m (mkContext (splitlines output) path))
                     <$> default [] (MAPPERS !! name)).
Proof.
  unfold execute_mappers. destruct (MAPPERS !! name) as [ms|]; cbn.
  - by rewrite execute_mappers_loop.
  - by rewrite app_nil_r.
Qed.

Lemma add_to_archive_run (self : InsightsArchive) (spec : InsightsSpec)
    (name : option string) (output dest : string) (st : State) :
  get_output spec = Some output →
  truthy_str (Some output) = true →
  add_to_archive_path self spec = Some dest →
  let ctx := mkContext (splitlines output) dest in
  let ms := if truthy_str name
            then default [] (MAPPERS !! default "" name) else [] in
  add_to_archive self spec name st
  = (mkState (<[dest := File output]> (fs st))
       (fold_left (collect ctx) ms (mapper_output st))
       (trace st ++ EvWrite dest output :: ((λ m, EvMapper m ctx) <$> ms)),
     Return tt).
Proof.
  intros Hout Hto Hdest ctx ms. unfold add_to_archive.
  rewrite Hout, Hto, Hdest. cbn.
  unfold mbind at 1, M_bind at 1. cbn.
  unfold mbind at 1, M_bind at 1, write_data_to_file, modify. cbn.
  unfold ms. destruct (truthy_str name); [|done].
  unfold execute_mappers. destruct (MAPPERS !! default "" name) as [l|].
  - rewrite execute_mappers_loop. cbn. by rewrite <- app_assoc.
  - done.
Qed.

(** X4: with no logical name, an empty one, or one that has no mappers
    registered, [add_to_archive] only writes the output: no mapper is
    called and the accumulator is as before. *)
Theorem unnamed_artifact_is_only_written (self : InsightsArchive)
    (spec : InsightsSpec) (name : option string) (output dest : string)
    (st : State) :
  get_output spec = Some output →
  truthy_str (Some output) = true →
  add_to_archive_path self spec = Some dest →
  truthy_str name = false ∨ MAPPERS !! default "" name = None →
  add_to_archive self spec name st
  = (mkState (<[dest := File output]> (fs st)) (mapper_output st)
       (trace st ++ [EvWrite dest output]), Return tt).
Proof.
  intros Hout Hto Hdest Hname.
  rewrite (add_to_archive_run self spec name output dest st Hout Hto Hdest).
  destruct Hname as [-> | Hnone]; [done|].
  rewrite Hnone. by destruct (truthy_str name).
Qed.

Lemma collect_falsy ctx acc m o :
  behaviour (mapper_at m) ctx = Return o → truthy o = false →
  collect ctx acc m = acc.
Proof. intros H Ho. unfold collect. by rewrite H, Ho. Qed.

Lemma collect_truthy ctx acc m o :
  behaviour (mapper_at m) ctx = Return o → truthy o = true →
  collect ctx acc m = <[m := results_of acc m ++ [o]]> acc.
Proof. intros H Ho. unfold collect. by rewrite H, Ho. Qed.

Lemma results_of_collect_other ctx acc m m' :
  m ≠ m' → results_of (collect ctx acc m') m = results_of acc m.
Proof. intros Hne. unfold results_of. by rewrite collect_other. Qed.

Lemma fold_collect_falsy ctx ms acc m o :
  behaviour (mapper_at m) ctx = Return o → truthy o = false →
  fold_left (collect ctx) ms acc !! m = acc !! m.
Proof.
  intros H Ho. revert acc. induction ms as [|m' ms IH]; intros acc; [done|].
  simpl. rewrite IH. destruct (decide (m = m')) as [<-|Hne].
  - by rewrite (collect_falsy _ _ _ _ H Ho).
  - by apply collect_other.
Qed.

Lemma fold_collect_truthy ctx ms acc m o :
  behaviour (mapper_at m) ctx = Return o → truthy o = true →
  results_of (fold_left (collect ctx) ms acc) m
  = results_of acc m ++ replicate (length (filter (λ x, x = m) ms)) o.
Proof.
  intros H Ho. revert acc. induction ms as [|m' ms IH]; intros acc.
  - simpl. by rewrite app_nil_r.
  - simpl. rewrite IH. rewrite filter_cons.
    destruct (decide (m' = m)) as [->|Hne].
    + rewrite (collect_truthy _ _ _ _ H Ho). unfold results_of at 1.
      rewrite lookup_insert_eq. simpl. by rewrite <- app_assoc.
    + by rewrite results_of_collect_other.
Qed.

(** X5: a mapper that returns a falsy value (None, False, 0, an empty
    string, list or dict) adds nothing: its entry in the accumulator is
    as before, and no entry is created for it. *)
Theorem falsy_result_is_dropped (self : InsightsArchive)
    (spec : InsightsSpec) (name : option string) (output dest : string)
    (st : State) (m : mapper_id) (o : value) :
  get_output spec = Some output →
  truthy_str (Some output) = true →
  add_to_archive_path self spec = Some dest →
  behaviour (mapper_at m) (mkContext (splitlines output) dest) = Return o →
  truthy o = false →
  mapper_output (add_to_archive self spec name st).1 !! m
  = mapper_output st !! m.
Proof.
  intros Hout Hto Hdest Hret Ho.
  rewrite (add_to_archive_run self spec name output dest st Hout Hto Hdest).
  cbn. by apply fold_collect_falsy with o.
Qed.

(** X6: a mapper that returns a truthy value has it appended to the end
    of its list once for each time it is registered under the name; the
    results it had before stay in front, in order. *)
Theorem truthy_result_is_appended (self : InsightsArchive)
    (spec : InsightsSpec) (name output dest : string) (st : State)
    (ms : list mapper_id) (m : mapper_id) (o : value) :
  get_output spec = Some output →
  truthy_str (Some output) = true →
  truthy_str (Some name) = true →
  add_to_archive_path self spec = Some dest →
  MAPPERS !! name = Some ms →
  behaviour (mapper_at m) (mkContext (splitlines output) dest) = Return o →
  truthy o = true →
  results_of (mapper_output (add_to_archive self spec (Some name) st).1) m
  = results_of (mapper_output st) m
    ++ replicate (length (filter (λ x, x = m) ms)) o.
Proof.
  intros Hout Hto Htn Hdest Hreg Hret Ho.
  rewrite (add_to_archive_run self spec (Some name) output dest st
             Hout Hto Hdest).
  cbn [fst mapper_output]. rewrite Htn. cbn [default from_option id].
  rewrite Hreg. cbn [default from_option id].
  by apply fold_collect_truthy.
Qed.

Lemma collect_grows ctx acc m m' :
  results_of acc m `prefix_of` results_of (collect ctx acc m') m.
Proof.
  unfold collect. destruct (behaviour (mapper_at m') ctx) as [o|e]; [|done].
  destruct (truthy o); [|done].
  destruct (decide (m = m')) as [<-|Hne].
  - unfold results_of at 2. rewrite lookup_insert_eq. by apply prefix_app_r.
  - unfold results_of. by rewrite lookup_insert_ne.
Qed.

Lemma fold_collect_grows ctx ms acc m :
  results_of acc m `prefix_of` results_of (fold_left (collect ctx) ms acc) m.
Proof.
  revert acc. induction ms as [|m' ms IH]; intros acc; [done|].
  simpl. etrans; [apply (collect_grows ctx acc m m') | apply IH].
Qed.

Lemma collect_ok ctx acc m :
  accumulator_ok acc → accumulator_ok (collect ctx acc m).
Proof.
  intros Hok. unfold collect.
  destruct (behaviour (mapper_at m) ctx) as [o|e]; [|done].
  destruct (truthy o) eqn:Ho; [|done].
  intros m' l. destruct (decide (m = m')) as [<-|Hne].
  - rewrite lookup_insert_eq. intros [= <-]. split.
    + by destruct (default [] (acc !! m)).
    + apply Forall_app. split; [|by apply Forall_singleton].
      destruct (acc !! m) as [l0|] eqn:E; [|by apply Forall_nil_2].
      by apply (Hok m l0).
  - rewrite lookup_insert_ne by done. apply Hok.
Qed.

Lemma fold_collect_ok ctx ms acc :
  accumulator_ok acc → accumulator_ok (fold_left (collect ctx) ms acc).
Proof.
  revert acc. induction ms as [|m ms IH]; intros acc Hok; [done|].
  simpl. by apply IH, collect_ok.
Qed.

Lemma add_to_archive_cases (self : InsightsArchive) (spec : InsightsSpec)
    (name : option string) (st : State) :
  mapper_output (add_to_archive self spec name st).1 = mapper_output st
  ∨ ∃ ctx ms,
      mapper_output (add_to_archive self spec name st).1
      = fold_left (collect ctx) ms (mapper_output st).
Proof.
  destruct (truthy_str (get_output spec)) eqn:Hto.
  - destruct (add_to_archive_path self spec) as [dest|] eqn:Hdest.
    + destruct (get_output spec) as [output|] eqn:Hout; [|done].
      right. eexists _, _.
      by rewrite (add_to_archive_run self spec name output dest st).
    + left. unfold add_to_archive. by rewrite Hto, Hdest.
  - left. unfold add_to_archive. by rewrite Hto.
Qed.

(** X7: the accumulator is never pruned: whatever the spec, the name and
    the mappers, the results each mapper had before a call of
    [add_to_archive] are an initial segment of what it has afterwards. *)
Theorem accumulator_only_grows (self : InsightsArchive) (spec : InsightsSpec)
    (name : option string) (st : State) (m : mapper_id) :
  results_of (mapper_output st) m
  `prefix_of` results_of (mapper_output (add_to_archive self spec name st).1) m.
Proof.
  destruct (add_to_archive_cases self spec name st) as [-> | (ctx & ms & ->)];
    [done | apply fold_collect_grows].
Qed.

(** X8: the accumulator never stores an empty list or a falsy result:
    this holds for the empty accumulator a new builder starts with, and
    every call of [add_to_archive] keeps it. *)
Theorem accumulator_holds_truthy_results (self : InsightsArchive)
    (spec : InsightsSpec) (name : option string) (st : State) :
  accumulator_ok ∅
  ∧ (accumulator_ok (mapper_output st) →
     accumulator_ok (mapper_output (add_to_archive self spec name st).1)).
Proof.
  split; [by intros m l; rewrite lookup_empty|].
  intros Hok.
  destruct (add_to_archive_cases self spec name st) as [-> | (ctx & ms & ->)];
    [done | by apply fold_collect_ok].
Qed.

(** ** Further properties: copying files and directories *)

Lemma for_each_idle {A : Type} (l : list A) (body : A → M unit) (st : State) :
  (∀ x, x ∈ l → body x st = (st, Return tt)) →
  for_each l body st = (st, Return tt).
Proof.
  induction l as [|x l IH]; intros Hbody; [done|].
  simpl. unfold mbind, M_bind. rewrite Hbody by set_solver.
  apply IH. intros y Hy. apply Hbody. set_solver.
Qed.

(** X9: when there is nothing to copy, [copy_file] changes nothing and
    does not raise: a literal path that is not a regular file gives
    [False], a glob without matches gives no value. *)
Theorem copy_file_nothing_to_copy (self : InsightsArchive) (p : string)
    (st : State) :
  (contains_char "*" p = false →
   (∀ c, fs st !! p ≠ Some (File c)) →
   copy_file self p st = (st, Return NotCopied))
  ∧ (contains_char "*" p = true →
     _expand_paths p (fs st) = None ∨ _expand_paths p (fs st) = Some [] →
     copy_file self p st = (st, Return NoValue)).
Proof.
  split; intros Hstar H; unfold copy_file; rewrite Hstar.
  - unfold mbind, M_bind, Os.path_isfile.
    destruct (fs st !! p) as [[|c]|] eqn:E; try done. by destruct (H c).
  - unfold mbind, M_bind, get_state. by destruct H as [-> | ->].
Qed.

Lemma copy_one_run (self : InsightsArchive) (p : string) (st : State) :
  well_formed self →
  let full := get_full_archive_path self p in
  ∃ st1,
    (st1 = st ∨
     (fs st !! Os.path_dirname full = None
      ∧ st1 = log (EvMakedirs (Os.path_dirname full))
                (set_fs <[Os.path_dirname full := Dir]> st)))
    ∧ _copy_file self p st
      = match fs st1 !! p with
        | Some (File c) =>
            if Shutil.can_open_for_writing (fs st1) full
            then (log (EvCopyfile p full) (set_fs <[full := File c]> st1),
                  Return p)
            else (st1, Raise IOError)
        | _ => (st1, Raise IOError)
        end.
Proof.
  intros Hwf full.
  assert (String.eqb p full = false) as Hne.
  { apply String.eqb_neq. intros H.
    by apply (full_archive_path_differs self p Hwf). }
  unfold _copy_file. fold full.
  unfold mbind at 1, M_bind at 1, try_except_pass, Os.makedirs.
  destruct (fs st !! Os.path_dirname full) as [n|] eqn:Hd; cbn.
  - exists st. split; [by left|].
    unfold mbind, M_bind, Shutil.copyfile. rewrite Hne.
    destruct (fs st !! p) as [[|c]|]; try done.
    by destruct (Shutil.can_open_for_writing (fs st) full).
  - eexists. split; [by right|].
    unfold mbind, M_bind, Shutil.copyfile. rewrite Hne. cbn.
    destruct (<[Os.path_dirname full:=Dir]> (fs st) !! p) as [[|c]|];
      try done.
    by destruct (Shutil.can_open_for_writing _ full).
Qed.

(** X10: a literal absolute path that is a regular file, copied when
    the directory of its resolved path is already there. The attempt to
    make that directory fails and is swallowed, the file is copied to the
    resolved path with the same content, nothing else changes, and
    [copy_file] returns the path. The source is still there: source and
    destination are different locations, not only different spellings. *)
Theorem copy_file_copies_regular_file (self : InsightsArchive)
    (p c : string) (st : State) :
  well_formed self →
  has_dotdot (archive_dir self) = false →
  contains_char "*" p = false →
  startswith_char "/" p = true →
  has_dotdot p = false →
  fs st !! p = Some (File c) →
  let full := get_full_archive_path self p in
  fs st !! Os.path_dirname full = Some Dir →
  fs st !! full ≠ Some Dir →
  let res := copy_file self p st in
  res.2 = Return (Copied p)
  ∧ norm_comps full ≠ norm_comps p
  ∧ fs res.1 = <[full := File c]> (fs st)
  ∧ fs res.1 !! p = Some (File c)
  ∧ trace res.1 = trace st ++ [EvCopyfile p full].
Proof.
  intros Hwf Hda Hstar Habs Hdd Hp full Hdir Hfull res.
  pose proof (full_archive_path_differs self p Hwf) as Hne. fold full in Hne.
  destruct (copy_one_run self p st Hwf) as (st1 & Hst1 & Hrun).
  fold full in Hst1, Hrun.
  destruct Hst1 as [-> | [Hd _]]; [|congruence].
  assert (Shutil.can_open_for_writing (fs st) full = true) as Hw.
  { unfold Shutil.can_open_for_writing. cbv zeta.
    rewrite Hdir, orb_true_r.
    destruct (fs st !! full) as [[|c']|]; [by destruct Hfull | done | done]. }
  assert (res = (log (EvCopyfile p full) (set_fs <[full := File c]> st),
                 Return (Copied p))) as ->.
  { unfold res, copy_file. rewrite Hstar.
    unfold mbind at 1, M_bind at 1, Os.path_isfile. rewrite Hp.
    unfold mbind, M_bind. rewrite Hrun, Hp, Hw. done. }
  cbn. split_and!; try done.
  - unfold full. rewrite resolved_comps, norm_comps_clean by done.
    destruct (archive_dir_comps self Hwf) as (_ & rest & ->).
    intros Heq. apply (f_equal length) in Heq.
    rewrite length_app in Heq. simpl in Heq. lia.
  - by rewrite lookup_insert_ne.
Qed.

(** X11: the glob branch does not test its matches: when the first match
    is not a regular file, [copy_file] raises [IOError] out of
    [shutil.copyfile], the remaining matches are not looked at, and no
    file has been created. *)
Theorem copy_file_glob_raises_on_non_file (self : InsightsArchive)
    (p q : string) (qs : list string) (st : State) :
  well_formed self →
  contains_char "*" p = true →
  _expand_paths p (fs st) = Some (q :: qs) →
  (∀ c, fs st !! q ≠ Some (File c)) →
  let res := copy_file self p st in
  res.2 = Raise IOError
  ∧ (∀ x c, fs res.1 !! x = Some (File c) → fs st !! x = Some (File c))
  ∧ (∀ e, e ∈ drop (length (trace st)) (trace res.1) →
          ∃ d, e = EvMakedirs d).
Proof.
  intros Hwf Hstar Hexp Hq res.
  destruct (copy_one_run self q st Hwf) as (st1 & Hst1 & Hrun).
  assert (∀ c, fs st1 !! q ≠ Some (File c)) as Hq1.
  { destruct Hst1 as [-> | [Hd ->]]; [done|]. cbn. intros c.
    destruct (decide (Os.path_dirname (get_full_archive_path self q) = q))
      as [Heq|Hne].
    - by rewrite Heq, lookup_insert_eq.
    - rewrite lookup_insert_ne by done. apply Hq. }
  assert (res = (st1, Raise IOError)) as ->.
  { unfold res, copy_file. rewrite Hstar.
    unfold mbind at 1, M_bind at 1, get_state. rewrite Hexp.
    unfold mbind at 1, M_bind at 1. cbn [for_each].
    unfold mbind at 1, M_bind at 1.
    unfold mbind at 1, M_bind at 1. rewrite Hrun.
    destruct (fs st1 !! q) as [[|c]|] eqn:E; try done. by destruct (Hq1 c). }
  cbn. split_and!; [done| |].
  - destruct Hst1 as [-> | [Hd ->]]; [done|]. cbn. intros x c.
    destruct (decide (Os.path_dirname (get_full_archive_path self q) = x))
      as [<-|Hne].
    + by rewrite lookup_insert_eq.
    + by rewrite lookup_insert_ne.
  - destruct Hst1 as [-> | [Hd ->]]; cbn.
    + rewrite drop_all. intros e He. by apply elem_of_nil in He.
    + rewrite drop_app_length. intros e He.
      apply list_elem_of_singleton in He. by eexists.
Qed.

(** X12: [copy_dir] does nothing and returns its argument when it is
    given an empty list, or a single string that is not a directory (the
    loop then runs over the characters of the string). *)
Theorem copy_dir_nothing_to_copy (self : InsightsArchive) (st : State) :
  copy_dir self (PList []) st = (st, Return (PList []))
  ∧ (∀ s, fs st !! s ≠ Some Dir →
          copy_dir self (PStr s) st = (st, Return (PStr s))).
Proof.
  split; [done|]. intros s Hs. unfold copy_dir.
  unfold mbind at 1, M_bind at 1. rewrite for_each_idle; [done|].
  intros x _. unfold mbind, M_bind, Os.path_isdir.
  by destruct (fs st !! s) as [[|c]|].
Qed.

(** ** Further properties: packaging and cleanup *)

(** X13: when the tar command cannot be run at all ([subprocess.call]
    raises), [create_tar_file] lets the exception through and skips the
    cleanup: [output.json] has been written, the command was the last
    effect, and the archive directory is not removed. *)
Theorem tar_not_started_keeps_archive_dir (self : InsightsArchive)
    (fa : bool) (st : State) (fs2 : gmap string node) (e : exn) :
  run_command (shlex_split (tar_command self fa))
    (fs (write_mapper_output self st).1) = (fs2, Raise e) →
  let res := create_tar_file self fa st in
  res.2 = Raise e
  ∧ fs res.1 = fs2
  ∧ trace res.1
    = trace st ++ [EvWrite (join (archive_dir self) "output.json")
                     (serialize {[ hostname self := mapper_output st ]});
                   EvSubprocess (shlex_split (tar_command self fa))]
  ∧ EvRmtree (archive_dir self)
    ∉ drop (length (trace st)) (trace res.1).
Proof.
  intros Hrun res. unfold res. rewrite create_tar_file_run.
  change (fs (write_mapper_output self st).1)
    with (<[join (archive_dir self) "output.json" :=
              File (serialize {[ hostname self := mapper_output st ]})]>
            (fs st)) in Hrun.
  rewrite Hrun. cbn. split_and!; try done.
  rewrite drop_app_length. intros H.
  repeat (apply elem_of_cons in H as [H|H]; [discriminate H|]).
  by apply elem_of_nil in H.
Qed.

(** X14: when the tar command returns but has left no tar file,
    [create_tar_file] raises [OSError] from [os.path.getsize], and does so
    after the archive directory has been removed: the staged files are
    gone and there is no archive. *)
Theorem missing_tar_file_raises_after_cleanup (self : InsightsArchive)
    (fa : bool) (st : State) (fs2 : gmap string node) (rc : Z) :
  run_command (shlex_split (tar_command self fa))
    (fs (write_mapper_output self st).1) = (fs2, Return rc) →
  fs2 !! tar_file_name self = None →
  let res := create_tar_file self fa st in
  res.2 = Raise OSError
  ∧ (∀ p, within (archive_dir self) p = true → fs res.1 !! p = None)
  ∧ fs res.1 !! tar_file_name self = None
  ∧ last (trace res.1) = Some (EvRmtree (archive_dir self)).
Proof.
  intros Hrun Hnone res. unfold res. rewrite create_tar_file_run.
  change (fs (write_mapper_output self st).1)
    with (<[join (archive_dir self) "output.json" :=
              File (serialize {[ hostname self := mapper_output st ]})]>
            (fs st)) in Hrun.
  rewrite Hrun. cbn.
  assert (filter (λ kv, within (archive_dir self) kv.1 = false) fs2
          !! tar_file_name self = None) as Hgone.
  { apply map_lookup_filter_None. by left. }
  rewrite Hgone. cbn. split_and!; try done.
  - intros p Hp. by rewrite lookup_rmtree, Hp.
  - apply last_snoc.
Qed.

Lemma within_root (self : InsightsArchive) :
  well_formed self → endswith_char "/" (tmp_dir self) = false →
  within (tmp_dir self) (archive_dir self) = true
  ∧ within (tmp_dir self) (tar_file_name self) = true.
Proof.
  intros ([name Hname] & [now Hnow] & Hdir & _) Hend.
  assert (archive_dir self
          = (tmp_dir self +:+ "/") +:+ archive_name self) as Had.
  { rewrite Hdir. unfold join. rewrite Hnow.
    change (startswith_char "/" ("insights-" +:+ hostname self +:+ "-" +:+ now))
      with false. cbv iota.
    rewrite Hend, orb_false_r, Hname. cbn [is_empty append].
    by rewrite !append_assoc. }
  unfold within, tar_file_name. rewrite <- Hdir, Had. split.
  - by rewrite prefix_app, orb_true_r.
  - by rewrite append_assoc, prefix_app, orb_true_r.
Qed.

(** X15: [delete_tmp_dir] never raises and removes the root with
    everything in it, the archive directory and the tar file included;
    paths outside the root are untouched, and a second call changes
    nothing more. *)
Theorem delete_tmp_dir_removes_everything (self : InsightsArchive)
    (st : State) :
  well_formed self →
  endswith_char "/" (tmp_dir self) = false →
  let res := delete_tmp_dir self st in
  res.2 = Return tt
  ∧ fs res.1 !! tmp_dir self = None
  ∧ fs res.1 !! archive_dir self = None
  ∧ fs res.1 !! tar_file_name self = None
  ∧ (∀ p, within (tmp_dir self) p = true → fs res.1 !! p = None)
  ∧ (∀ p, within (tmp_dir self) p = false → fs res.1 !! p = fs st !! p)
  ∧ fs (delete_tmp_dir self res.1).1 = fs res.1.
Proof.
  intros Hwf Hend res. destruct (within_root self Hwf Hend) as [Had Htar].
  assert (∀ p, within (tmp_dir self) p = true → fs res.1 !! p = None)
    as Hgone.
  { intros p Hp. cbn. by rewrite lookup_rmtree, Hp. }
  split_and!; try done.
  - apply Hgone. unfold within. by rewrite String.eqb_refl.
  - by apply Hgone.
  - by apply Hgone.
  - intros p Hp. cbn. by rewrite lookup_rmtree, Hp.
  - apply rmtree_absent, Hgone.
Qed.

(** ** Further properties: what the operations leave alone *)

Lemma keeps_accumulator_ret {A : Type} (a : A) : keeps_accumulator (mret a).
Proof. by intros st. Qed.

Lemma keeps_accumulator_bind {A B : Type} (m : M A) (k : A → M B) :
  keeps_accumulator m → (∀ a, keeps_accumulator (k a)) →
  keeps_accumulator (m ≫= k).
Proof.
  intros Hm Hk st. unfold mbind, M_bind. specialize (Hm st).
  destruct (m st) as [st1 [a|e]]; cbn in *; [|done].
  by rewrite Hk.
Qed.

Lemma keeps_accumulator_for_each {A : Type} (l : list A) (body : A → M unit) :
  (∀ x, keeps_accumulator (body x)) → keeps_accumulator (for_each l body).
Proof.
  intros Hbody. induction l as [|x l IH].
  - apply keeps_accumulator_ret.
  - simpl. by apply keeps_accumulator_bind.
Qed.

Lemma keeps_accumulator_try (catches : exn → bool) (m : M unit) :
  keeps_accumulator m → keeps_accumulator (try_except_pass catches m).
Proof.
  intros Hm st. unfold try_except_pass. specialize (Hm st).
  destruct (m st) as [st1 [[]|e]]; [done|]. by destruct (catches e).
Qed.

Lemma keeps_accumulator_makedirs p : keeps_accumulator (Os.makedirs p).
Proof. intros st. unfold Os.makedirs. by destruct (fs st !! p). Qed.

Lemma keeps_accumulator_copyfile src dst :
  keeps_accumulator (Shutil.copyfile src dst).
Proof.
  intros st. unfold Shutil.copyfile.
  destruct (String.eqb src dst); [done|].
  destruct (fs st !! src) as [[|c]|]; try done.
  by destruct (Shutil.can_open_for_writing (fs st) dst).
Qed.

Lemma keeps_accumulator_copytree src dst :
  keeps_accumulator (Shutil.copytree src dst).
Proof.
  intros st. unfold Shutil.copytree.
  destruct (fs st !! src) as [[|c]|]; [|done..]. by destruct (fs st !! dst).
Qed.

Lemma keeps_accumulator_copy_one (self : InsightsArchive) (p : string) :
  keeps_accumulator (_copy_file self p).
Proof.
  unfold _copy_file. apply keeps_accumulator_bind.
  { apply keeps_accumulator_try, keeps_accumulator_makedirs. }
  intros _. apply keeps_accumulator_bind; [apply keeps_accumulator_copyfile|].
  intros _. apply keeps_accumulator_ret.
Qed.

(** X16: the accumulator belongs to [add_to_archive] alone: copying
    files or directories, adding metadata, writing the mapper output,
    packaging and both cleanups leave it exactly as it was, whether they
    return or raise. *)
Theorem accumulator_untouched_elsewhere (self : InsightsArchive) :
  (∀ p, keeps_accumulator (copy_file self p))
  ∧ (∀ ps, keeps_accumulator (copy_dir self ps))
  ∧ (∀ metadata p, keeps_accumulator (add_metadata_to_archive self metadata p))
  ∧ keeps_accumulator (write_mapper_output self)
  ∧ (∀ fa, keeps_accumulator (create_tar_file self fa))
  ∧ keeps_accumulator (delete_archive_dir self)
  ∧ keeps_accumulator (delete_tmp_dir self).
Proof.
  split_and!; try done.
  - intros p st. unfold copy_file. destruct (contains_char "*" p).
    + unfold mbind at 1, M_bind at 1, get_state.
      destruct (_expand_paths p (fs st)) as [[|q qs]|]; try done.
      revert st. apply keeps_accumulator_bind.
      * apply keeps_accumulator_for_each. intros x.
        apply keeps_accumulator_bind; [apply keeps_accumulator_copy_one|].
        intros _. apply keeps_accumulator_ret.
      * intros _. apply keeps_accumulator_ret.
    + revert st. apply keeps_accumulator_bind; [done|].
      intros [|]; [|apply keeps_accumulator_ret].
      apply keeps_accumulator_bind; [apply keeps_accumulator_copy_one|].
      intros r. apply keeps_accumulator_ret.
  - intros ps. unfold copy_dir. apply keeps_accumulator_bind.
    + apply keeps_accumulator_for_each. intros directory.
      apply keeps_accumulator_bind.
      * intros st. unfold Os.path_isdir. by destruct ps.
      * intros [|]; [apply keeps_accumulator_copytree
                    | apply keeps_accumulator_ret].
    + intros _. apply keeps_accumulator_ret.
  - intros fa st. rewrite create_tar_file_run.
    by destruct (run_command _ _) as [fs2 [rc|e]].
Qed.

Lemma never_removes_ret {A : Type} (a : A) : never_removes (mret a).
Proof. by intros st q. Qed.

Lemma never_removes_bind {A B : Type} (m : M A) (k : A → M B) :
  never_removes m → (∀ a, never_removes (k a)) → never_removes (m ≫= k).
Proof.
  intros Hm Hk st q Hq. unfold mbind, M_bind. specialize (Hm st q Hq).
  destruct (m st) as [st1 [a|e]]; cbn in *; [|done].
  by apply Hk.
Qed.

Lemma never_removes_for_each {A : Type} (l : list A) (body : A → M unit) :
  (∀ x, never_removes (body x)) → never_removes (for_each l body).
Proof.
  intros Hbody. induction l as [|x l IH].
  - apply never_removes_ret.
  - simpl. by apply never_removes_bind.
Qed.

Lemma never_removes_try (catches : exn → bool) (m : M unit) :
  never_removes m → never_removes (try_except_pass catches m).
Proof.
  intros Hm st q Hq. unfold try_except_pass. specialize (Hm st q Hq).
  destruct (m st) as [st1 [[]|e]]; [done|]. by destruct (catches e).
Qed.

Lemma never_removes_makedirs p : never_removes (Os.makedirs p).
Proof.
  intros st q Hq. unfold Os.makedirs.
  destruct (fs st !! p) eqn:E; [done|]. cbn.
  apply lookup_insert_is_Some. destruct (decide (p = q)); auto.
Qed.

Lemma never_removes_copyfile src dst :
  never_removes (Shutil.copyfile src dst).
Proof.
  intros st q Hq. unfold Shutil.copyfile.
  destruct (String.eqb src dst); [done|].
  destruct (fs st !! src) as [[|c]|]; [done| |done].
  destruct (Shutil.can_open_for_writing (fs st) dst); [|done]. cbn.
  apply lookup_insert_is_Some. destruct (decide (dst = q)); auto.
Qed.

Lemma never_removes_copytree src dst :
  never_removes (Shutil.copytree src dst).
Proof.
  intros st q Hq. unfold Shutil.copytree.
  destruct (fs st !! src) as [[|c]|]; [|done..].
  destruct (fs st !! dst); [done|]. cbn.
  apply lookup_union_is_Some. by right.
Qed.

Lemma never_removes_write data p : never_removes (write_data_to_file data p).
Proof.
  intros st q Hq. cbn.
  apply lookup_insert_is_Some. destruct (decide (p = q)); auto.
Qed.

Lemma execute_mappers_fs (self : InsightsArchive) (name output path : string)
    (st : State) :
  fs (execute_mappers self name output path st).1 = fs st.
Proof.
  unfold execute_mappers. destruct (MAPPERS !! name) as [ms|]; [|done].
  by rewrite execute_mappers_loop.
Qed.

Lemma never_removes_copy_one (self : InsightsArchive) (p : string) :
  never_removes (_copy_file self p).
Proof.
  unfold _copy_file. apply never_removes_bind.
  { apply never_removes_try, never_removes_makedirs. }
  intros _. apply never_removes_bind; [apply never_removes_copyfile|].
  intros _. apply never_removes_ret.
Qed.

(** X17: ingestion only adds or overwrites: no call of [copy_file],
    [copy_dir], [add_to_archive], [add_metadata_to_archive] or
    [write_mapper_output] makes a path that existed disappear, whether it
    returns or raises. *)
Theorem ingestion_never_removes (self : InsightsArchive) :
  (∀ p, never_removes (copy_file self p))
  ∧ (∀ ps, never_removes (copy_dir self ps))
  ∧ (∀ spec name, never_removes (add_to_archive self spec name))
  ∧ (∀ metadata p, never_removes (add_metadata_to_archive self metadata p))
  ∧ never_removes (write_mapper_output self).
Proof.
  split_and!.
  - intros p st. unfold copy_file. destruct (contains_char "*" p).
    + unfold mbind at 1, M_bind at 1, get_state.
      destruct (_expand_paths p (fs st)) as [[|q qs]|]; try done.
      revert st. apply never_removes_bind.
      * apply never_removes_for_each. intros x.
        apply never_removes_bind; [apply never_removes_copy_one|].
        intros _. apply never_removes_ret.
      * intros _. apply never_removes_ret.
    + revert st. apply never_removes_bind; [by intros st q Hq|].
      intros [|]; [|apply never_removes_ret].
      apply never_removes_bind; [apply never_removes_copy_one|].
      intros r. apply never_removes_ret.
  - intros ps. unfold copy_dir. apply never_removes_bind.
    + apply never_removes_for_each. intros directory.
      apply never_removes_bind.
      * intros st q Hq. unfold Os.path_isdir. by destruct ps.
      * intros [|]; [apply never_removes_copytree | apply never_removes_ret].
    + intros _. apply never_removes_ret.
  - intros spec name. unfold add_to_archive.
    destruct (truthy_str (get_output spec)); [|apply never_removes_ret].
    destruct (add_to_archive_path self spec) as [d|]; [|by intros st q Hq].
    change (read_local (Some d) ≫= ?k) with (k d). cbv beta.
    apply never_removes_bind; [apply never_removes_write|].
    intros _. destruct (truthy_str name); [|apply never_removes_ret].
    intros st q Hq. by rewrite execute_mappers_fs.
  - intros metadata p. apply never_removes_write.
  - intros st q Hq. by apply never_removes_write.
Qed.

(** ** Further properties: construction and whole runs *)

Lemma endswith_app c a b :
  b ≠ "" → endswith_char c (a +:+ b) = endswith_char c b.
Proof.
  intros Hb. induction a as [|x a IH]; [done|].
  rewrite append_cons. rewrite <- IH.
  destruct (a +:+ b) as [|y t] eqn:E; [|done].
  apply (f_equal String.length) in E. rewrite length_append in E.
  destruct b; [done|]. simpl in E. lia.
Qed.

Lemma endswith_contains c s :
  endswith_char c s = true → contains_char c s = true.
Proof.
  induction s as [|x s IH]; [done|]. destruct s as [|y s'].
  - simpl. by intros ->.
  - intros H. cbn [contains_char]. rewrite orb_true_iff. right.
    by apply IH.
Qed.

Lemma plain_name_inv s :
  plain_name s = true →
  contains_char "/" s = false ∧ s ≠ "" ∧ s ≠ "." ∧ s ≠ "..".
Proof.
  unfold plain_name. rewrite !andb_true_iff, !negb_true_iff.
  intros [[[H1 H2] H3] H4]. split_and!; [done|..]; by apply String.eqb_neq.
Qed.

Lemma lstrip_plain s : contains_char "/" s = false → lstrip "/" s = s.
Proof.
  destruct s as [|x s]; [done|]. cbn [contains_char lstrip].
  by intros [-> _]%orb_false_iff.
Qed.

Lemma startswith_plain s :
  contains_char "/" s = false → startswith_char "/" s = false.
Proof.
  destruct s as [|x s]; [done|]. cbn [contains_char startswith_char].
  by intros [-> _]%orb_false_iff.
Qed.

Lemma endswith_plain a s :
  contains_char "/" s = false → s ≠ "" → endswith_char "/" (a +:+ s) = false.
Proof.
  intros Hs Hne. rewrite endswith_app by done.
  destruct (endswith_char "/" s) eqn:E; [|done].
  apply endswith_contains in E. congruence.
Qed.

Lemma dirname_aux_plain s :
  contains_char "/" s = false → Os.dirname_aux s = None.
Proof.
  induction s as [|x s IH]; [done|]. cbn [contains_char Os.dirname_aux].
  intros [Hx Hs]%orb_false_iff. by rewrite IH, Hx.
Qed.

Lemma path_dirname_tmp name :
  contains_char "/" name = false →
  Os.path_dirname ("/var/tmp/" +:+ name) = "/var/tmp".
Proof.
  intros H. unfold Os.path_dirname.
  change ("/var/tmp/" +:+ name) with ("/var/tmp" +:+ String "/" name).
  by rewrite dirname_aux_app, dirname_aux_plain.
Qed.

Lemma append_proper (a b : string) : a +:+ b = a → b = "".
Proof.
  intros H. apply (f_equal String.length) in H.
  rewrite length_append in H. destruct b; [done|]. simpl in H. lia.
Qed.

(** What [__init__] does when the name [tempfile.mkdtemp] picks is one
    component and the time stamp has no separator. *)
Lemma init_run (c name host now : string) (st st' : State)
    (self : InsightsArchive) :
  plain_name name = true →
  contains_char "/" now = false →
  __init__ c name host now st = (st', Return self) →
  let tmp := "/var/tmp/" +:+ name in
  let aname := "insights-" +:+ host +:+ "-" +:+ now in
  let adir := tmp +:+ "/" +:+ aname in
  let cdir := adir +:+ "/insights_commands" in
  self = mkArchive tmp host aname adir cdir c
  ∧ st' = mkState (<[cdir := Dir]> (<[adir := Dir]> (<[tmp := Dir]> (fs st))))
            ∅ (trace st ++ [EvMakedirs tmp; EvMakedirs adir; EvMakedirs cdir])
  ∧ fs st !! "/var/tmp" = Some Dir
  ∧ fs st !! tmp = None ∧ fs st !! adir = None ∧ fs st !! cdir = None
  ∧ tmp ≠ adir ∧ tmp ≠ cdir ∧ adir ≠ cdir
  ∧ endswith_char "/" adir = false.
Proof.
  intros Hname Hnow Hinit tmp aname adir cdir.
  apply plain_name_inv in Hname as (Hn1 & Hn2 & _).
  assert (endswith_char "/" adir = false) as Hend.
  { replace adir with ((tmp +:+ "/" +:+ "insights-" +:+ host) +:+ "-" +:+ now)
      by (unfold adir, aname; by rewrite !append_assoc).
    apply endswith_plain; [|done]. by rewrite append_cons. }
  assert (join tmp aname = adir) as Hj1.
  { unfold join, tmp. change (startswith_char "/" aname) with false.
    cbv iota. by rewrite endswith_plain. }
  assert (join adir "insights_commands" = cdir) as Hj2.
  { unfold join. change (startswith_char "/" "insights_commands") with false.
    cbv iota. rewrite Hend. change (is_empty adir) with false. done. }
  revert Hinit.
  unfold __init__, mkdtemp, create_archive_dir, create_command_dir.
  unfold mbind, M_bind, mret, M_ret, Os.mkdir, Os.makedirs, modify.
  fold tmp. destruct (fs st !! tmp) eqn:E1; [done|]. cbv zeta.
  assert (Os.path_dirname tmp = "/var/tmp") as -> by by apply path_dirname_tmp.
  change (is_empty (lstrip "/" "/var/tmp")) with false. rewrite orb_false_l.
  destruct (fs st !! "/var/tmp") as [[|?]|] eqn:E0; [|done|done]. cbn.
  fold aname. rewrite Hj1.
  destruct (<[tmp := Dir]> (fs st) !! adir) eqn:E2; [done|]. cbn.
  rewrite Hj2.
  destruct (<[adir := Dir]> (<[tmp := Dir]> (fs st)) !! cdir) eqn:E3; [done|].
  cbn. intros [= <- <-].
  apply lookup_insert_None in E3 as [E3 Hne1].
  apply lookup_insert_None in E3 as [E3 Hne2].
  apply lookup_insert_None in E2 as [E2 Hne3].
  unfold set_mapper_output, log, set_fs. cbn. rewrite <- !app_assoc.
  by split_and!.
Qed.

(** X18: [__init__] on a file system where the name [tempfile.mkdtemp]
    picks is one component and neither the hostname nor the time stamp
    has a separator. When it returns, [/var/tmp] was a directory, the
    builder is well formed with the hostname and compressor it was given,
    the archive directory is the entry of the archive name in the root and
    the command directory the entry [insights_commands] in the archive
    directory; the three have just been made, in that order, each in a
    directory that was there, every other path is as before, and the
    accumulator is empty. *)
Theorem init_makes_the_staging_tree (c name host now : string)
    (st st' : State) (self : InsightsArchive) :
  plain_name name = true →
  contains_char "/" host = false →
  contains_char "/" now = false →
  __init__ c name host now st = (st', Return self) →
  well_formed self
  ∧ fs st !! "/var/tmp" = Some Dir
  ∧ tmp_dir self = "/var/tmp/" +:+ name
  ∧ archive_name self = "insights-" +:+ host +:+ "-" +:+ now
  ∧ archive_dir self = tmp_dir self +:+ "/" +:+ archive_name self
  ∧ cmd_dir self = archive_dir self +:+ "/insights_commands"
  ∧ hostname self = host
  ∧ compressor self = c
  ∧ mapper_output st' = ∅
  ∧ fs st' !! tmp_dir self = Some Dir
  ∧ fs st' !! archive_dir self = Some Dir
  ∧ fs st' !! cmd_dir self = Some Dir
  ∧ lies_under (archive_dir self) (cmd_dir self)
  ∧ trace st' = trace st ++ [EvMakedirs (tmp_dir self);
                             EvMakedirs (archive_dir self);
                             EvMakedirs (cmd_dir self)]
  ∧ (∀ q, q ∉ [tmp_dir self; archive_dir self; cmd_dir self] →
          fs st' !! q = fs st !! q).
Proof using Type.
  intros Hname _ Hnow Hinit.
  destruct (init_run c name host now st st' self Hname Hnow Hinit)
    as (-> & -> & Hvar & _ & _ & _ & Hne1 & Hne2 & Hne3 & Hend).
  cbn [tmp_dir hostname archive_name archive_dir cmd_dir compressor
       fs mapper_output trace].
  set (tmp := "/var/tmp/" +:+ name) in *.
  set (aname := "insights-" +:+ host +:+ "-" +:+ now) in *.
  set (adir := tmp +:+ "/" +:+ aname) in *.
  set (cdir := adir +:+ "/insights_commands") in *.
  assert (join adir "insights_commands" = cdir) as Hj2.
  { unfold join. change (startswith_char "/" "insights_commands") with false.
    cbv iota. rewrite Hend. by change (is_empty adir) with false. }
  assert (join tmp aname = adir) as Hj1.
  { apply plain_name_inv in Hname as (Hn1 & Hn2 & _).
    unfold join, tmp. change (startswith_char "/" aname) with false.
    cbv iota. by rewrite endswith_plain. }
  split_and!; try done.
  - split_and!; cbn; [by eexists | by eexists | done | done].
  - do 2 (rewrite lookup_insert_ne by done). apply lookup_insert_eq.
  - rewrite lookup_insert_ne by done. apply lookup_insert_eq.
  - apply lookup_insert_eq.
  - rewrite <- Hj2. by apply lies_under_join.
  - intros q Hq. rewrite !lookup_insert_ne; [done|..];
      intros <-; apply Hq; by repeat constructor.
Qed.

(** X20: a whole run, for a metadata entry whose path is one component
    other than [output.json] and [insights_commands], after an [__init__]
    whose [tempfile.mkdtemp] name is one component and whose hostname and
    time stamp have no separator. The entry is written as that name in
    the archive directory; the file system the tar command runs on is the one
    [__init__] left with that file and [output.json], the serialization
    of the empty accumulator under the hostname, added: the two files are
    there next to the command directory, inside the archive directory and
    the root; and what [create_tar_file] leaves is what that command
    left, minus the archive directory if it returned. *)
Theorem metadata_reaches_the_tar_command (c name host now data p : string)
    (fa : bool) (st0 st1 : State) (self : InsightsArchive) :
  plain_name name = true →
  contains_char "/" host = false →
  contains_char "/" now = false →
  __init__ c name host now st0 = (st1, Return self) →
  plain_name p = true →
  p ≠ "output.json" →
  p ≠ "insights_commands" →
  let meta := archive_dir self +:+ "/" +:+ p in
  let out := archive_dir self +:+ "/output.json" in
  let st2 := (add_metadata_to_archive self data p st1).1 in
  let fs_in := <[out := File (serialize {[ host := ∅ ]})]>
                 (<[meta := File data]> (fs st1)) in
  let run := run_command (shlex_split (tar_command self fa)) fs_in in
  get_full_archive_path self p = meta
  ∧ fs st2 = <[meta := File data]> (fs st1)
  ∧ fs_in !! meta = Some (File data)
  ∧ fs_in !! out = Some (File (serialize {[ host := ∅ ]}))
  ∧ fs_in !! cmd_dir self = Some Dir
  ∧ fs_in !! archive_dir self = Some Dir
  ∧ fs_in !! tmp_dir self = Some Dir
  ∧ fs (create_tar_file self fa st2).1
    = match run.2 with
      | Return _ =>
          filter (λ kv, within (archive_dir self) kv.1 = false) run.1
      | Raise _ => run.1
      end.
Proof.
  intros Hname _ Hnow Hinit Hp Hp1 Hp2.
  destruct (init_run c name host now st0 st1 self Hname Hnow Hinit)
    as (-> & -> & _ & _ & _ & _ & Hne1 & Hne2 & Hne3 & Hend).
  set (tmp := "/var/tmp/" +:+ name) in *.
  set (aname := "insights-" +:+ host +:+ "-" +:+ now) in *.
  set (adir := tmp +:+ "/" +:+ aname) in *.
  set (cdir := adir +:+ "/insights_commands") in *.
  set (self := mkArchive tmp host aname adir cdir c).
  set (st1 := mkState _ _ _).
  change (archive_dir self) with adir. change (cmd_dir self) with cdir.
  change (tmp_dir self) with tmp.
  intros meta out st2 fs_in run.
  apply plain_name_inv in Hp as (Hp3 & Hp4 & _).
  assert (∀ b, startswith_char "/" b = false → join adir b = adir +:+ "/" +:+ b)
    as Hjoin.
  { intros b Hb. unfold join. rewrite Hb, Hend.
    by change (is_empty adir) with false. }
  assert (get_full_archive_path self p = meta) as Hmeta.
  { unfold get_full_archive_path. cbn [archive_dir self].
    rewrite lstrip_plain by done. apply Hjoin. by apply startswith_plain. }
  assert (join adir "output.json" = out) as Hout by by apply Hjoin.
  assert (meta ≠ out) as Hmo.
  { unfold meta, out. intros H. apply String.app_inj in H.
    change ("/output.json") with ("/" +:+ "output.json") in H.
    by apply String.app_inj in H. }
  assert (meta ≠ cdir) as Hmc.
  { unfold meta, cdir. intros H. apply String.app_inj in H.
    change ("/insights_commands") with ("/" +:+ "insights_commands") in H.
    by apply String.app_inj in H. }
  assert (out ≠ cdir) as Hoc.
  { unfold out, cdir. intros H. by apply String.app_inj in H. }
  assert (∀ b, adir ≠ adir +:+ String "/" b) as Hchild.
  { intros b H. symmetry in H. by apply append_proper in H. }
  assert (∀ b, tmp ≠ adir +:+ b) as Hgrand.
  { intros b H. symmetry in H. unfold adir in H. rewrite append_assoc in H.
    by apply append_proper in H. }
  assert (fs st2 = <[meta := File data]> (fs st1)
          ∧ mapper_output st2 = ∅) as [Hfs2 Hacc2].
  { unfold st2, add_metadata_to_archive.
    rewrite (lstrip_plain p) by done. by rewrite Hmeta. }
  pose proof (create_tar_file_run self fa st2) as Hrun. cbv zeta in Hrun.
  rewrite Hacc2, Hfs2 in Hrun. cbn [archive_dir hostname self] in Hrun.
  rewrite Hout in Hrun. fold fs_in run in Hrun.
  split_and!; [done | done |..].
  - unfold fs_in. rewrite lookup_insert_ne by done. apply lookup_insert_eq.
  - apply lookup_insert_eq.
  - unfold fs_in. do 2 (rewrite lookup_insert_ne by done).
    apply lookup_insert_eq.
  - unfold fs_in, out, meta.
    do 2 (rewrite lookup_insert_ne by (symmetry; apply Hchild)).
    cbn [fs st1]. rewrite lookup_insert_ne by done. apply lookup_insert_eq.
  - unfold fs_in, out, meta.
    do 2 (rewrite lookup_insert_ne by (symmetry; apply Hgrand)).
    cbn [fs st1]. do 2 (rewrite lookup_insert_ne by done).
    apply lookup_insert_eq.
  - rewrite Hrun. destruct run as [fs2 [rc|e]]; done.
Qed.



End Archive.

(** ** The properties on the sample world *)

Section SampleRuns.
Import Path Sample.

Local Abbreviation add_to_archive_s :=
  (add_to_archive MAPPERS mapper_at splitlines).
Local Abbreviation create_tar_file_s :=
  (create_tar_file serialize shlex_split run_command).

Lemma sample_well_formed : well_formed self.
Proof. repeat split; by eexists. Defined.

(** Against C1 as the spec words it: on the sample builder the default
    call does not run tar over the archive subdirectory, and the call with
    [full_archive] true does not run it over the root. *)
Lemma package_default_tars_the_root :
  ¬ runs_tar_over shlex_split self (archive_dir self)
      (trace (create_tar_file_s self false start).1)
  ∧ ¬ runs_tar_over shlex_split self (tmp_dir self)
        (trace (create_tar_file_s self true start).1).
Proof.
  unfold runs_tar_over. split; intros H; vm_compute in H;
    repeat (apply elem_of_cons in H as [H|H]; [discriminate H|]);
    by apply elem_of_nil in H.
Qed.

(** Against C2 as the spec words it: a metadata path that climbs with
    [..] is resolved to [/var/etc/passwd], outside the archive directory,
    and that is where the write goes. *)
Lemma dotdot_path_escapes_archive_dir :
  norm_comps (get_full_archive_path self "../../../etc/passwd")
    = ["var"; "etc"; "passwd"]
  ∧ ¬ lies_under (archive_dir self)
        (get_full_archive_path self "../../../etc/passwd")
  ∧ ¬ writes_within (archive_dir self)
        (add_metadata_to_archive self "root::0:0" "../../../etc/passwd")
        start.
Proof.
  assert (¬ lies_under (archive_dir self)
              (get_full_archive_path self "../../../etc/passwd")) as Hout.
  { intros [_ [k Hk]]. vm_compute in Hk. discriminate Hk. }
  split_and!; [done | done |].
  intros (new & Htr & Hall). cbn in Htr. subst new.
  apply Forall_cons in Hall as [Hall _]. by apply Hout.
Qed.

Lemma ingestion_writes_stay_in_archive_dir_witness :
  well_formed self
  ∧ lies_under (archive_dir self) (get_full_archive_path self "/etc/hosts")
  ∧ writes_within (archive_dir self)
      (add_metadata_to_archive self "{}" "/meta.json") start
  ∧ writes_within (archive_dir self)
      (add_to_archive_s self uname_spec (Some "uname")) start.
Proof.
  destruct (ingestion_writes_stay_in_archive_dir MAPPERS mapper_at
              splitlines (λ _ _, None) self sample_well_formed)
    as (H1 & H2 & H3 & _).
  split_and!.
  - exact sample_well_formed.
  - apply H1. reflexivity.
  - apply H2. reflexivity.
  - apply H3. reflexivity.
Defined.

(** The failing input of C3: [/etc] is a directory, and the call raises
    without copying it. *)
Lemma copy_dir_of_a_directory_raises :
  Os.path_isdir (PStr "/etc") start = (start, Return true)
  ∧ copy_dir self (PList ["/etc"]) start = (start, Raise TypeError).
Proof. split; reflexivity. Qed.

Lemma failing_mapper_is_isolated_witness :
  MAPPERS !! "uname" = Some ([1] ++ 0 :: [2; 1])
  ∧ behaviour (mapper_at 0)
      (mkContext (splitlines "Linux web1")
         "/var/tmp/k3x9/insights-web1-20160101120000/insights_commands/uname_-a")
    = Raise (OtherError "ValueError")
  ∧ (add_to_archive_s self uname_spec (Some "uname") start).2 = Return tt
  ∧ mapper_output (add_to_archive_s self uname_spec (Some "uname") start).1
    !! 0 = None.
Proof.
  pose proof (failing_mapper_is_isolated MAPPERS mapper_at splitlines self
    uname_spec "uname" "Linux web1"
    "/var/tmp/k3x9/insights-web1-20160101120000/insights_commands/uname_-a"
    start [1] [2; 1] 0 (OtherError "ValueError")
    eq_refl eq_refl eq_refl eq_refl eq_refl eq_refl)
    as (H1 & _ & _ & _ & H4 & _).
  split_and!; [reflexivity | reflexivity | exact H1 | exact H4].
Defined.

Lemma no_output_changes_nothing_witness :
  truthy_str (get_output (mkSpec None (InsightsFile "/etc/motd") (Some "")))
    = false
  ∧ add_to_archive_s self (mkSpec None (InsightsFile "/etc/motd") (Some ""))
      (Some "uname") start = (start, Return tt).
Proof.
  split; [reflexivity|].
  apply (no_output_changes_nothing MAPPERS mapper_at splitlines self
           (mkSpec None (InsightsFile "/etc/motd") (Some ""))).
  reflexivity.
Defined.

Lemma unassigned_destination_raises_witness :
  add_to_archive_path self stray_spec = None
  ∧ add_to_archive_s self stray_spec None start
    = (start, Raise UnboundLocalError).
Proof.
  destruct (unassigned_destination_raises MAPPERS mapper_at splitlines self
              stray_spec None start eq_refl eq_refl) as [H1 H2].
  split; [exact H1 | apply H2; reflexivity].
Defined.

Lemma compression_flag_table_witness :
  ("lzma" ∉ ["gz"; "xz"; "bz2"; "none"])
  ∧ get_compression_flag "lzma" = "z".
Proof.
  assert ("lzma" ∉ ["gz"; "xz"; "bz2"; "none"]) as Hnot.
  { intros H. repeat (apply elem_of_cons in H as [H|H]; [discriminate H|]).
    by apply elem_of_nil in H. }
  split; [exact Hnot|].
  destruct (compression_flag_table self false) as (_ & _ & _ & _ & H & _).
  by apply H.
Defined.

Lemma accumulator_serialized_before_tar_witness :
  mapper_output start = ∅
  ∧ serialize {[ hostname self := mapper_output start ]}
    = serialize {[ hostname self := ∅ ]}.
Proof.
  split; [reflexivity|].
  destruct (accumulator_serialized_before_tar serialize shlex_split
              run_command self false start) as (_ & _ & _ & _ & _ & H).
  apply H. reflexivity.
Defined.

Lemma archive_dir_removed_after_tar_witness :
  let fs2 :=
    (run_command (shlex_split (tar_command self false))
       (fs (write_mapper_output serialize self start).1)).1 in
  run_command (shlex_split (tar_command self false))
    (fs (write_mapper_output serialize self start).1) = (fs2, Return 0%Z)
  ∧ fs (create_tar_file_s self false start).1 !! archive_dir self = None
  ∧ fs (create_tar_file_s self false start).1 !! tmp_dir self = Some Dir
  ∧ fs (create_tar_file_s self false start).1 !! tar_file_name self
    = Some (File "tarball").
Proof.
  intros fs2.
  assert (run_command (shlex_split (tar_command self false))
            (fs (write_mapper_output serialize self start).1)
          = (fs2, Return 0%Z)) as Hrun by reflexivity.
  destruct (archive_dir_removed_after_tar serialize shlex_split run_command
              self false start fs2 0%Z sample_well_formed Hrun)
    as (H1 & _ & H3 & H4 & _).
  split_and!.
  - exact Hrun.
  - apply H1. reflexivity.
  - rewrite H3. reflexivity.
  - rewrite H4. reflexivity.
Defined.

Lemma resolve_same_location_witness :
  has_dotdot "/etc//./hosts" = false
  ∧ clean_comps "/etc//./hosts" = clean_comps "etc/hosts"
  ∧ norm_comps (get_full_archive_path self "/etc//./hosts")
    = norm_comps (get_full_archive_path self "etc/hosts").
Proof.
  split_and!; [reflexivity | reflexivity |].
  destruct (resolve_same_location self "/etc//./hosts" "etc/hosts"
              sample_well_formed eq_refl eq_refl eq_refl) as (_ & _ & [_ H]).
  apply H. reflexivity.
Defined.

Lemma compression_flag_range_witness :
  get_compression_flag "none" = ""
  ∧ tar_file_name (mkArchive "/var/tmp/k3x9" "web1" "a" "/var/tmp/k3x9/a"
                     "/var/tmp/k3x9/a/insights_commands" "none")
    = "/var/tmp/k3x9/a.tar".
Proof.
  destruct (compression_flag_range
              (mkArchive "/var/tmp/k3x9" "web1" "a" "/var/tmp/k3x9/a"
                 "/var/tmp/k3x9/a/insights_commands" "none"))
    as (_ & H2 & H3).
  split.
  - apply H2. reflexivity.
  - apply H3. reflexivity.
Defined.

Lemma unnamed_artifact_is_only_written_witness :
  MAPPERS !! "hostname" = None
  ∧ mapper_output (add_to_archive_s self uname_spec (Some "hostname") start).1
    = ∅.
Proof.
  split; [reflexivity|].
  rewrite (unnamed_artifact_is_only_written MAPPERS mapper_at splitlines self
    uname_spec (Some "hostname") "Linux web1"
    "/var/tmp/k3x9/insights-web1-20160101120000/insights_commands/uname_-a"
    start eq_refl eq_refl eq_refl (or_intror eq_refl)).
  reflexivity.
Defined.

Lemma falsy_result_is_dropped_witness :
  behaviour (mapper_at 2)
    (mkContext (splitlines "Linux web1")
       "/var/tmp/k3x9/insights-web1-20160101120000/insights_commands/uname_-a")
  = Return VNone
  ∧ mapper_output (add_to_archive_s self uname_spec (Some "uname") start).1
    !! 2 = None.
Proof.
  split; [reflexivity|].
  apply (falsy_result_is_dropped MAPPERS mapper_at splitlines self
    uname_spec (Some "uname") "Linux web1"
    "/var/tmp/k3x9/insights-web1-20160101120000/insights_commands/uname_-a"
    start 2 VNone eq_refl eq_refl eq_refl eq_refl eq_refl).
Defined.

Lemma truthy_result_is_appended_witness :
  MAPPERS !! "uname" = Some [1; 0; 2; 1]
  ∧ results_of
      (mapper_output (add_to_archive_s self uname_spec (Some "uname") start).1)
      1
    = [VInt 1; VInt 1].
Proof.
  split; [reflexivity|].
  apply (truthy_result_is_appended MAPPERS mapper_at splitlines self
    uname_spec "uname" "Linux web1"
    "/var/tmp/k3x9/insights-web1-20160101120000/insights_commands/uname_-a"
    start [1; 0; 2; 1] 1 (VInt 1)
    eq_refl eq_refl eq_refl eq_refl eq_refl eq_refl eq_refl).
Defined.

Lemma accumulator_holds_truthy_results_witness :
  accumulator_ok (mapper_output start)
  ∧ accumulator_ok
      (mapper_output (add_to_archive_s self uname_spec (Some "uname") start).1).
Proof.
  destruct (accumulator_holds_truthy_results MAPPERS mapper_at splitlines self
              uname_spec (Some "uname") start) as [H0 H1].
  split; [exact H0 | apply H1; exact H0].
Defined.

Lemma copy_file_nothing_to_copy_witness :
  copy_file expand_paths self "/etc/motd" start = (start, Return NotCopied)
  ∧ copy_file expand_paths self "/none/*" start = (start, Return NoValue).
Proof.
  split.
  - apply (copy_file_nothing_to_copy expand_paths self "/etc/motd" start);
      [reflexivity|]. intros c H. discriminate H.
  - apply (copy_file_nothing_to_copy expand_paths self "/none/*" start);
      [reflexivity|]. left. reflexivity.
Defined.

Lemma copy_file_copies_regular_file_witness :
  let dst := "/var/tmp/k3x9/insights-web1-20160101120000/etc/hosts" in
  let st :=
    set_fs <["/var/tmp/k3x9/insights-web1-20160101120000/etc" := Dir]> start in
  let res := copy_file expand_paths self "/etc/hosts" st in
  fs st !! "/etc/hosts" = Some (File "127.0.0.1 localhost")
  ∧ fs st !! Os.path_dirname dst = Some Dir
  ∧ fs st !! dst ≠ Some Dir
  ∧ res.2 = Return (Copied "/etc/hosts")
  ∧ fs res.1 = <[dst := File "127.0.0.1 localhost"]> (fs st)
  ∧ trace res.1 = [EvCopyfile "/etc/hosts" dst].
Proof.
  intros dst st res.
  assert (fs st !! dst ≠ Some Dir) as Hdst
    by (intros H; vm_compute in H; discriminate H).
  destruct (copy_file_copies_regular_file expand_paths self "/etc/hosts"
              "127.0.0.1 localhost" st sample_well_formed eq_refl eq_refl
              eq_refl eq_refl eq_refl eq_refl Hdst)
    as (H1 & _ & H3 & _ & H5).
  split_and!; [reflexivity | reflexivity | exact Hdst | exact H1 | exact H3
               | exact H5].
Defined.

Lemma copy_file_glob_raises_on_non_file_witness :
  expand_paths "/et*" (fs start) = Some ["/etc"]
  ∧ fs start !! "/etc" = Some Dir
  ∧ (copy_file expand_paths self "/et*" start).2 = Raise IOError.
Proof.
  split_and!; [reflexivity | reflexivity |].
  apply (copy_file_glob_raises_on_non_file expand_paths self "/et*" "/etc" []
           start sample_well_formed eq_refl eq_refl).
  intros c H. discriminate H.
Defined.

Lemma copy_dir_nothing_to_copy_witness :
  fs start !! "/etc/hosts" ≠ Some Dir
  ∧ copy_dir self (PStr "/etc/hosts") start = (start, Return (PStr "/etc/hosts")).
Proof.
  assert (fs start !! "/etc/hosts" ≠ Some Dir) as H
    by (intros H; discriminate H).
  split; [exact H|].
  by apply (copy_dir_nothing_to_copy self start).
Defined.

Lemma tar_not_started_keeps_archive_dir_witness :
  let no_tar := λ (_ : list string) (f : gmap string node),
                  (f, Raise OSError : outcome Z) in
  (create_tar_file serialize shlex_split no_tar self false start).2
  = Raise OSError
  ∧ fs (create_tar_file serialize shlex_split no_tar self false start).1
    !! archive_dir self = Some Dir.
Proof.
  intros no_tar.
  destruct (tar_not_started_keeps_archive_dir serialize shlex_split no_tar
              self false start
              (fs (write_mapper_output serialize self start).1) OSError
              eq_refl) as (H1 & H2 & _).
  split; [exact H1|]. rewrite H2. reflexivity.
Defined.

Lemma missing_tar_file_raises_after_cleanup_witness :
  let bad_tar := λ (_ : list string) (f : gmap string node),
                   (f, Return 2%Z) in
  (create_tar_file serialize shlex_split bad_tar self false start).2
  = Raise OSError
  ∧ fs (create_tar_file serialize shlex_split bad_tar self false start).1
    !! archive_dir self = None.
Proof.
  intros bad_tar.
  destruct (missing_tar_file_raises_after_cleanup serialize shlex_split
              bad_tar self false start
              (fs (write_mapper_output serialize self start).1) 2%Z
              eq_refl eq_refl) as (H1 & H2 & _).
  split; [exact H1|]. apply H2. reflexivity.
Defined.

Lemma delete_tmp_dir_removes_everything_witness :
  endswith_char "/" (tmp_dir self) = false
  ∧ fs (delete_tmp_dir self start).1 !! archive_dir self = None
  ∧ fs (delete_tmp_dir self start).1 !! "/etc/hosts"
    = Some (File "127.0.0.1 localhost").
Proof.
  destruct (delete_tmp_dir_removes_everything self start sample_well_formed
              eq_refl) as (_ & _ & H3 & _ & _ & H6 & _).
  split_and!; [reflexivity | exact H3 |].
  rewrite H6; reflexivity.
Defined.

Lemma init_makes_the_staging_tree_witness :
  let st := mkState {[ "/var/tmp" := Dir; "/etc" := Dir ]} ∅ [] in
  let res := __init__ "gz" "k3x9" "web1" "20160101120000" st in
  res.2 = Return self
  ∧ fs res.1 !! cmd_dir self = Some Dir
  ∧ trace res.1 = [EvMakedirs (tmp_dir self); EvMakedirs (archive_dir self);
                   EvMakedirs (cmd_dir self)]
  ∧ fs res.1 !! "/etc" = Some Dir.
Proof.
  intros st res.
  assert (res = (res.1, Return self)) as Hres by reflexivity.
  destruct (init_makes_the_staging_tree "gz" "k3x9" "web1" "20160101120000"
              st res.1 self eq_refl eq_refl eq_refl Hres)
    as (_ & _ & _ & _ & _ & _ & _ & _ & _ & _ & _ & H12 & _ & H14 & H15).
  split_and!; [reflexivity | exact H12 | exact H14 |].
  rewrite H15; [reflexivity|].
  intros H. repeat (apply elem_of_cons in H as [H|H]; [discriminate H|]).
  by apply elem_of_nil in H.
Defined.

Lemma metadata_reaches_the_tar_command_witness :
  let st0 := mkState {[ "/var/tmp" := Dir; "/etc" := Dir ]} ∅ [] in
  let st1 := (__init__ "none" "k3x9" "web1" "20160101120000" st0).1 in
  let self0 := mkArchive "/var/tmp/k3x9" "web1" "insights-web1-20160101120000"
                 "/var/tmp/k3x9/insights-web1-20160101120000"
                 "/var/tmp/k3x9/insights-web1-20160101120000/insights_commands"
                 "none" in
  let st2 := (add_metadata_to_archive self0 "{k:v}" "meta.json" st1).1 in
  let meta := "/var/tmp/k3x9/insights-web1-20160101120000/meta.json" in
  let out := "/var/tmp/k3x9/insights-web1-20160101120000/output.json" in
  let fs_in := <[out := File "{web1: {}}"]>
                 (<[meta := File "{k:v}"]> (fs st1)) in
  __init__ "none" "k3x9" "web1" "20160101120000" st0 = (st1, Return self0)
  ∧ get_full_archive_path self0 "meta.json" = meta
  ∧ fs st2 = <[meta := File "{k:v}"]> (fs st1)
  ∧ fs_in !! cmd_dir self0 = Some Dir
  ∧ fs (create_tar_file_s self0 false st2).1
    = filter (λ kv, within (archive_dir self0) kv.1 = false)
        (<["/var/tmp/k3x9/insights-web1-20160101120000.tar" := File "tarball"]>
           fs_in).
Proof.
  intros st0 st1 self0 st2 meta out fs_in.
  assert (__init__ "none" "k3x9" "web1" "20160101120000" st0
          = (st1, Return self0)) as Hinit by reflexivity.
  assert ("meta.json" ≠ "output.json") as Hne1 by (intros H; discriminate H).
  assert ("meta.json" ≠ "insights_commands") as Hne2
    by (intros H; discriminate H).
  destruct (metadata_reaches_the_tar_command serialize shlex_split run_command
              "none" "k3x9" "web1" "20160101120000" "{k:v}" "meta.json" false
              st0 st1 self0 eq_refl eq_refl eq_refl Hinit eq_refl Hne1 Hne2)
    as (H1 & H2 & _ & _ & H5 & _ & _ & H8).
  split_and!; [exact Hinit | exact H1 | exact H2 | exact H5 | exact H8].
Defined.

Lemma ingestion_never_removes_witness :
  is_Some (fs start !! "/etc/hosts")
  ∧ is_Some (fs (add_metadata_to_archive self "x" "/etc/hosts" start).1
             !! "/etc/hosts").
Proof.
  assert (is_Some (fs start !! "/etc/hosts")) as H by (by eexists).
  split; [exact H|].
  destruct (ingestion_never_removes MAPPERS mapper_at serialize splitlines
              expand_paths self) as (_ & _ & _ & H4 & _).
  by apply (H4 "x" "/etc/hosts" start "/etc/hosts").
Defined.

End SampleRuns.
